(** * QCFractal compute-manager socket: lifecycle and orphan recovery

    A shallow embedding of [qcfractal/components/managers/sockets.py]
    (class [ManagerSocket]) together with the properties of the manager
    lifecycle: activation, resource-stat heartbeats, deactivation with task
    reclamation, and the bounded point lookup.

    Modelling conventions:
    - a Python [str] is a [string] of ASCII characters, [str.lower] acts on
      the letters A-Z;
    - a Python [dict] is an insertion-ordered association list with unique
      keys;
    - a [float] is an IEEE-754 value ([spec_float]); the code only stores
      floats, it never computes with them;
    - a naive [datetime] is an integer count of microseconds;
    - the table of managers is the list of its rows in storage order;
    - an operation maps the database to an outcome (a value or a raised
      exception), the database afterwards and the lines it logged.  Each
      exception below is raised before the operation has written anything,
      so the rollback of the session leaves the database as it was. *)

From Stdlib Require Import List String Ascii ZArith Bool Arith Lia.
From Stdlib Require Import DecimalString.
From Stdlib Require Import Floats.SpecFloat.
Import ListNotations.

Open Scope string_scope.
Open Scope list_scope.
Open Scope Z_scope.

(** ** Python values *)

Module Py.

Definition float := spec_float.
Definition datetime := Z.

(** The values an ORM attribute declared as a float column may hold at
    the Python level: a float, or whatever else was assigned to it. *)
#[local] Set Warnings "-register-all".
Inductive pyval : Type :=
| PyFloat (x : float)
| PyTuple (items : list pyval).
#[local] Set Warnings "register-all".

(** [str.lower] on one ASCII character. *)
Definition lower_ascii (c : ascii) : ascii :=
  let n := nat_of_ascii c in
  if (Nat.leb 65 n && Nat.leb n 90)%bool then ascii_of_nat (n + 32) else c.

(** [str.lower]. *)
Fixpoint lower (s : string) : string :=
  match s with
  | EmptyString => EmptyString
  | String c s' => String (lower_ascii c) (lower s')
  end.

(** [len(x) > 0] on a string. *)
Definition nonempty (s : string) : bool := Nat.ltb 0 (String.length s).

(** [f"{n}"] for a non-negative length and for an int. *)
Definition str_of_nat (n : nat) : string := NilZero.string_of_uint (Nat.to_uint n).
Definition str_of_int (z : Z) : string := NilZero.string_of_int (Z.to_int z).

(** Insertion-ordered dictionaries with string keys. *)
Definition dict (V : Type) := list (string * V).

(** [d[k] = v]: an existing key keeps its position, a new one goes last. *)
Fixpoint setitem {V} (k : string) (v : V) (d : dict V) : dict V :=
  match d with
  | [] => [(k, v)]
  | (k', v') :: d' =>
      if String.eqb k' k then (k', v) :: d' else (k', v') :: setitem k v d'
  end.

(** [d.get(k)]. *)
Fixpoint get {V} (k : string) (d : dict V) : option V :=
  match d with
  | [] => None
  | (k', v') :: d' => if String.eqb k' k then Some v' else get k d'
  end.

(** [k in l] for a list of strings. *)
Definition mem (k : string) (l : list string) : bool := existsb (String.eqb k) l.

(** [list(d)]. *)
Definition keys {V} (d : dict V) : list string := map fst d.

(** [dict.fromkeys(it)]: every key mapped to [None], in order. *)
Definition fromkeys (it : list string) : dict unit :=
  fold_left (fun d k => setitem k tt d) it [].

(** [d.update(items)]: the items are stored one after the other. *)
Definition update {V} (d : dict V) (items : list (string * V)) : dict V :=
  fold_left (fun acc kv => setitem (fst kv) (snd kv) acc) items d.

End Py.

Import Py.

(** ** Exceptions and outcomes *)

(** Modelled from the spec: the exception class [ComputeManagerError] of
    [qcfractal.exceptions], built as the socket builds it, from a message
    and the shutdown directive for the caller.  Beside it the built-in
    [RuntimeError], and SQLAlchemy's [MultipleResultsFound], which
    [scalar_one_or_none] raises on more than one row. *)
Inductive exn : Type :=
| ComputeManagerError (msg : string) (shutdown : bool)
| RuntimeError (msg : string)
| MultipleResultsFound.

Inductive result (A : Type) : Type :=
| Ok (a : A)
| Raise (e : exn).
Arguments Ok {A} a.
Arguments Raise {A} e.

Inductive LogLevel : Type := WARNING | INFO.
Definition LogRecord : Type := LogLevel * string.

(** ** The ORM classes *)

(** Modelled from the spec: [ManagerStatusEnum] of [qcfractal.portal.managers],
    the enum of the two statuses of a manager. *)
Inductive ManagerStatusEnum : Type := active | inactive.

Definition status_eqb (a b : ManagerStatusEnum) : bool :=
  match a, b with
  | active, active | inactive, inactive => true
  | _, _ => false
  end.

(** Modelled from the spec: [ManagerName] of [qcfractal.portal.managers],
    the name triple of a manager (fullname, cluster, hostname). *)
Module ManagerName.
Record t : Type := mk {
  fullname : string;
  cluster : string;
  hostname : string
}.
End ManagerName.

(** Modelled from the spec: [ComputeManagerLogORM] of [db_models.py], a log
    entry: the counter fields of a manager plus [timestamp]. *)
Module ComputeManagerLogORM.
Record t : Type := mk {
  claimed : Z;
  successes : Z;
  failures : Z;
  rejected : Z;
  total_worker_walltime : float;
  total_task_walltime : pyval;
  active_tasks : Z;
  active_cores : Z;
  active_memory : float;
  timestamp : datetime
}.
End ComputeManagerLogORM.

(** Modelled from the spec: [ComputeManagerORM] of [db_models.py], the
    persisted shape of a manager record, with its log (the relationship
    [log]).  A column declared as a float holds, at the Python level,
    whatever was assigned to it; [total_task_walltime] is typed
    accordingly. *)
Module ComputeManagerORM.
Record t : Type := mk {
  id : option Z;            (* None until the row is flushed *)
  name : string;
  cluster : string;
  hostname : string;
  username : option string;
  tags : list string;
  programs : dict (option string);
  status : ManagerStatusEnum;
  manager_version : string;
  qcengine_version : string;
  claimed : Z;
  successes : Z;
  failures : Z;
  rejected : Z;
  total_worker_walltime : float;
  total_task_walltime : pyval;
  active_tasks : Z;
  active_cores : Z;
  active_memory : float;
  created_on : datetime;
  modified_on : datetime;
  log : list ComputeManagerLogORM.t
}.

(** Attribute assignments [orm.attr = v]. *)
Definition set_id v (o : t) : t :=
  mk v (name o) (cluster o) (hostname o) (username o) (tags o) (programs o)
     (status o) (manager_version o) (qcengine_version o) (claimed o)
     (successes o) (failures o) (rejected o) (total_worker_walltime o)
     (total_task_walltime o) (active_tasks o) (active_cores o)
     (active_memory o) (created_on o) (modified_on o) (log o).

Definition set_status v (o : t) : t :=
  mk (id o) (name o) (cluster o) (hostname o) (username o) (tags o) (programs o)
     v (manager_version o) (qcengine_version o) (claimed o)
     (successes o) (failures o) (rejected o) (total_worker_walltime o)
     (total_task_walltime o) (active_tasks o) (active_cores o)
     (active_memory o) (created_on o) (modified_on o) (log o).

Definition set_total_worker_walltime v (o : t) : t :=
  mk (id o) (name o) (cluster o) (hostname o) (username o) (tags o) (programs o)
     (status o) (manager_version o) (qcengine_version o) (claimed o)
     (successes o) (failures o) (rejected o) v
     (total_task_walltime o) (active_tasks o) (active_cores o)
     (active_memory o) (created_on o) (modified_on o) (log o).

Definition set_total_task_walltime v (o : t) : t :=
  mk (id o) (name o) (cluster o) (hostname o) (username o) (tags o) (programs o)
     (status o) (manager_version o) (qcengine_version o) (claimed o)
     (successes o) (failures o) (rejected o) (total_worker_walltime o)
     v (active_tasks o) (active_cores o)
     (active_memory o) (created_on o) (modified_on o) (log o).

Definition set_active_tasks v (o : t) : t :=
  mk (id o) (name o) (cluster o) (hostname o) (username o) (tags o) (programs o)
     (status o) (manager_version o) (qcengine_version o) (claimed o)
     (successes o) (failures o) (rejected o) (total_worker_walltime o)
     (total_task_walltime o) v (active_cores o)
     (active_memory o) (created_on o) (modified_on o) (log o).

Definition set_active_cores v (o : t) : t :=
  mk (id o) (name o) (cluster o) (hostname o) (username o) (tags o) (programs o)
     (status o) (manager_version o) (qcengine_version o) (claimed o)
     (successes o) (failures o) (rejected o) (total_worker_walltime o)
     (total_task_walltime o) (active_tasks o) v
     (active_memory o) (created_on o) (modified_on o) (log o).

Definition set_active_memory v (o : t) : t :=
  mk (id o) (name o) (cluster o) (hostname o) (username o) (tags o) (programs o)
     (status o) (manager_version o) (qcengine_version o) (claimed o)
     (successes o) (failures o) (rejected o) (total_worker_walltime o)
     (total_task_walltime o) (active_tasks o) (active_cores o)
     v (created_on o) (modified_on o) (log o).

Definition set_modified_on v (o : t) : t :=
  mk (id o) (name o) (cluster o) (hostname o) (username o) (tags o) (programs o)
     (status o) (manager_version o) (qcengine_version o) (claimed o)
     (successes o) (failures o) (rejected o) (total_worker_walltime o)
     (total_task_walltime o) (active_tasks o) (active_cores o)
     (active_memory o) (created_on o) v (log o).

Definition set_log v (o : t) : t :=
  mk (id o) (name o) (cluster o) (hostname o) (username o) (tags o) (programs o)
     (status o) (manager_version o) (qcengine_version o) (claimed o)
     (successes o) (failures o) (rejected o) (total_worker_walltime o)
     (total_task_walltime o) (active_tasks o) (active_cores o)
     (active_memory o) (created_on o) (modified_on o) v.
End ComputeManagerORM.

(** ** The socket *)

(** [self]: the two response limits read from the server configuration. *)
Module ManagerSocket.
Record t : Type := mk {
  _manager_limit : Z;
  _manager_log_limit : Z
}.
End ManagerSocket.

(** The database as the socket sees it: the manager table, the sequence
    that numbers new rows, and the tables of the task subsystem. *)
Record Database (R : Type) : Type := mkDatabase {
  manager_table : list ComputeManagerORM.t;
  manager_id_seq : Z;
  records : R
}.
Arguments mkDatabase {R} _ _ _.
Arguments manager_table {R} _.
Arguments manager_id_seq {R} _.
Arguments records {R} _.

(** What a call leaves behind: its outcome, the database, the log lines. *)
Definition Outcome (R A : Type) : Type := result A * Database R * list LogRecord.

Section Socket.

(** The state of the task subsystem ([root_socket.records]) and its
    operation [reset_assigned(manager_name=..., session=...)], which hands
    back the ids of the tasks it released.  The operation belongs to the
    records socket and is a parameter here; it works on its own tables. *)
Variable R : Type.
Variable reset_assigned : list string -> R -> list Z * R.

(** Column defaults of [ComputeManagerORM] (declared in [db_models.py]),
    applied to the attributes the constructor call in [activate] does not
    name. *)
Variable column_default : ComputeManagerORM.t.

(** [ManagerSocket.save_snapshot]. *)
Definition save_snapshot (orm : ComputeManagerORM.t) : ComputeManagerORM.t :=
  let log_orm :=
    ComputeManagerLogORM.mk
      (ComputeManagerORM.claimed orm)
      (ComputeManagerORM.successes orm)
      (ComputeManagerORM.failures orm)
      (ComputeManagerORM.rejected orm)
      (ComputeManagerORM.total_worker_walltime orm)
      (ComputeManagerORM.total_task_walltime orm)
      (ComputeManagerORM.active_tasks orm)
      (ComputeManagerORM.active_cores orm)
      (ComputeManagerORM.active_memory orm)
      (ComputeManagerORM.modified_on orm) in
  ComputeManagerORM.set_log (ComputeManagerORM.log orm ++ [log_orm]) orm.

(** [select(ComputeManagerORM).where(ComputeManagerORM.name == name)]. *)
Definition select_by_name (name : string) (d : Database R)
  : list ComputeManagerORM.t :=
  filter (fun r => String.eqb (ComputeManagerORM.name r) name) (manager_table d).

(** Modelled from the spec: [get_count_2(session, stmt)] of
    [qcfractal.db_socket.helpers], the number of rows the statement selects
    (the uniqueness check of activation). *)
Definition get_count_2 (rows : list ComputeManagerORM.t) : Z :=
  Z.of_nat (List.length rows).

(** Modelled from the spec: [session.add(orm); session.flush()] gives the
    row its newly assigned internal identifier, the next value of the
    sequence of the table, and stores it after the rows already there. *)
Definition session_add_flush (orm : ComputeManagerORM.t) (d : Database R)
  : ComputeManagerORM.t * Database R :=
  let orm' := ComputeManagerORM.set_id (Some (manager_id_seq d)) orm in
  (orm', mkDatabase (manager_table d ++ [orm']) (manager_id_seq d + 1) (records d)).

(** The two comprehensions that open [activate]. *)
Definition strip_tags (tags : list string) : list string :=
  map lower (filter nonempty tags).

Definition strip_programs (programs : dict (option string))
  : dict (option string) :=
  fold_left
    (fun acc kv => if nonempty (fst kv) then setitem (lower (fst kv)) (snd kv) acc else acc)
    programs [].

(** [ManagerSocket.activate]. *)
Definition activate
    (name_data : ManagerName.t) (manager_version qcengine_version : string)
    (username : option string) (programs : dict (option string))
    (tags : list string) (d : Database R) : Outcome R (option Z) :=
  let tags := strip_tags tags in
  let programs := strip_programs programs in
  if Nat.eqb (List.length tags) 0 then
    (Raise (ComputeManagerError
              "Manager does not have any tags assigned. Use '*' to match all tags" true),
     d, [])
  else if Nat.eqb (List.length programs) 0 then
    (Raise (ComputeManagerError "Manager does not have any programs available" true),
     d, [])
  else
    let tags := keys (fromkeys tags) in
    let manager_orm :=
      ComputeManagerORM.mk
        None
        (ManagerName.fullname name_data)
        (ManagerName.cluster name_data)
        (ManagerName.hostname name_data)
        username
        tags
        programs
        active
        manager_version
        qcengine_version
        (ComputeManagerORM.claimed column_default)
        (ComputeManagerORM.successes column_default)
        (ComputeManagerORM.failures column_default)
        (ComputeManagerORM.rejected column_default)
        (ComputeManagerORM.total_worker_walltime column_default)
        (ComputeManagerORM.total_task_walltime column_default)
        (ComputeManagerORM.active_tasks column_default)
        (ComputeManagerORM.active_cores column_default)
        (ComputeManagerORM.active_memory column_default)
        (ComputeManagerORM.created_on column_default)
        (ComputeManagerORM.modified_on column_default)
        (ComputeManagerORM.log column_default) in
    let count := get_count_2 (select_by_name (ManagerName.fullname name_data) d) in
    if count >? 0 then
      (Raise (ComputeManagerError "A manager with this name already exists" true),
       d,
       [(WARNING,
         "Cannot activate duplicate manager: " ++ ManagerName.fullname name_data)%string])
    else
      let (manager_orm, d') := session_add_flush manager_orm d in
      (Ok (ComputeManagerORM.id manager_orm), d', []).

(** The session's identity map: the changed object replaces the row it
    was loaded from. *)
Definition write_back (name : string) (orm : ComputeManagerORM.t)
    (d : Database R) : Database R :=
  mkDatabase
    (map (fun r => if String.eqb (ComputeManagerORM.name r) name then orm else r)
         (manager_table d))
    (manager_id_seq d) (records d).

(** [ManagerSocket.update_resource_stats]; [now] is what
    [datetime.utcnow()] reads during the call.  The select locks the row
    ([with_for_update]); [scalar_one_or_none] gives [None] for no row,
    the row when there is one, and raises when there are several. *)
Definition update_resource_stats
    (now : datetime)
    (name : string) (total_worker_walltime total_task_walltime : float)
    (active_tasks active_cores : Z) (active_memory : float)
    (d : Database R) : Outcome R unit :=
  match select_by_name name d with
  | [] =>
      (Raise (ComputeManagerError
                ("Cannot update resource stats for manager " ++ name
                 ++ " - does not exist")%string true),
       d, [])
  | [manager] =>
      if negb (status_eqb (ComputeManagerORM.status manager) active) then
        (Raise (ComputeManagerError
                  ("Cannot update resource stats for manager " ++ name
                   ++ " - is not active")%string true),
         d, [])
      else
        let manager := ComputeManagerORM.set_total_worker_walltime total_worker_walltime manager in
        let manager := ComputeManagerORM.set_total_task_walltime
                         (PyTuple [PyFloat total_task_walltime]) manager in
        let manager := ComputeManagerORM.set_active_tasks active_tasks manager in
        let manager := ComputeManagerORM.set_active_cores active_cores manager in
        let manager := ComputeManagerORM.set_active_memory active_memory manager in
        let manager := ComputeManagerORM.set_modified_on now manager in
        let manager := save_snapshot manager in
        (Ok tt, write_back name manager d, [])
  | _ :: _ :: _ => (Raise MultipleResultsFound, d, [])
  end.

(** Truth values of the two optional arguments of [deactivate]: a
    collection of names is true when it is not empty, a [datetime] always. *)
Definition truthy_names (name : option (list string)) : bool :=
  match name with
  | Some (_ :: _) => true
  | _ => false
  end.

Definition truthy_datetime (modified_before : option datetime) : bool :=
  match modified_before with
  | Some _ => true
  | None => false
  end.

(** SQLAlchemy's [and_] over a list of clauses, [column.in_(names)] and
    [column < value] as row predicates. *)
Definition and_ (clauses : list (ComputeManagerORM.t -> bool))
    (r : ComputeManagerORM.t) : bool :=
  forallb (fun clause => clause r) clauses.

Definition name_in_ (names : list string) (r : ComputeManagerORM.t) : bool :=
  existsb (String.eqb (ComputeManagerORM.name r)) names.

Definition modified_on_lt (t : datetime) (r : ComputeManagerORM.t) : bool :=
  ComputeManagerORM.modified_on r <? t.

Definition status_is (s : ManagerStatusEnum) (r : ComputeManagerORM.t) : bool :=
  status_eqb (ComputeManagerORM.status r) s.

(** The list [query_and] that [deactivate] builds. *)
Definition query_and (name : option (list string))
    (modified_before : option datetime) : list (ComputeManagerORM.t -> bool) :=
  let query_and := [] in
  let query_and :=
    if truthy_names name
    then query_and ++ [name_in_ (match name with Some l => l | None => [] end)]
    else query_and in
  let query_and :=
    match modified_before with
    | Some t => query_and ++ [modified_on_lt t]
    | None => query_and
    end in
  query_and.

(** The [where] clause of the update statement. *)
Definition deactivate_where (name : option (list string))
    (modified_before : option datetime) : ComputeManagerORM.t -> bool :=
  and_ [status_is active; and_ (query_and name modified_before)].

(** [.values(status=ManagerStatusEnum.inactive, modified_on=now)]. *)
Definition deactivate_values (now : datetime) (r : ComputeManagerORM.t)
  : ComputeManagerORM.t :=
  ComputeManagerORM.set_modified_on now (ComputeManagerORM.set_status inactive r).

(** The loop over [deactivated_names]: one call of [reset_assigned] and
    one log line for each. *)
Fixpoint reset_orphans (reason : string) (deactivated_names : list string)
    (rec : R) : R * list LogRecord :=
  match deactivated_names with
  | [] => (rec, [])
  | dead_name :: rest =>
      let (incomplete_ids, rec) := reset_assigned [dead_name] rec in
      let line :=
        (INFO,
         "Deactivated manager " ++ dead_name ++ ". Reason: " ++ reason
         ++ ". Recycling " ++ str_of_nat (List.length incomplete_ids)
         ++ " incomplete tasks.")%string in
      let (rec, lines) := reset_orphans reason rest rec in
      (rec, line :: lines)
  end.

(** [ManagerSocket.deactivate]; [now] is what [datetime.utcnow()] reads. *)
Definition deactivate
    (now : datetime)
    (name : option (list string)) (modified_before : option datetime)
    (reason : string) (d : Database R) : Outcome R (list string) :=
  if (negb (truthy_names name) && negb (truthy_datetime modified_before))%bool then
    (Ok [], d, [])
  else
    let where_ := deactivate_where name modified_before in
    let deactivated_names :=
      map ComputeManagerORM.name (filter where_ (manager_table d)) in
    let table :=
      map (fun r => if where_ r then deactivate_values now r else r)
          (manager_table d) in
    let (rec, lines) := reset_orphans reason deactivated_names (records d) in
    (Ok deactivated_names, mkDatabase table (manager_id_seq d) rec, lines).

(** [get_general] of [qcfractal.db_socket.helpers] reads the rows named
    in [name], projected by [include]/[exclude]; it is a parameter of
    [get], as is the type of the dictionaries it returns. *)
Variable ManagerDict : Type.
Variable get_general :
  list ComputeManagerORM.t -> list string -> option (list string) ->
  option (list string) -> bool -> result (list (option ManagerDict)).

(** [ManagerSocket.get]. *)
Definition get (self : ManagerSocket.t)
    (name : list string) (include exclude : option (list string))
    (missing_ok : bool) (d : Database R)
  : Outcome R (list (option ManagerDict)) :=
  if Z.of_nat (List.length name) >? ManagerSocket._manager_limit self then
    (Raise (RuntimeError
              ("Request for " ++ str_of_nat (List.length name)
               ++ " managers is over the limit of "
               ++ str_of_int (ManagerSocket._manager_limit self))%string),
     d, [])
  else
    (get_general (manager_table d) name include exclude missing_ok, d, []).

(** *** Calls as a transition system *)

(** The mutating operations of the subsystem, each with its arguments;
    [CallUpdate] and [CallDeactivate] carry the clock reading of the call. *)
Inductive Call : Type :=
| CallActivate (name_data : ManagerName.t) (manager_version qcengine_version : string)
    (username : option string) (programs : dict (option string)) (tags : list string)
| CallUpdate (now : datetime) (name : string)
    (total_worker_walltime total_task_walltime : float)
    (active_tasks active_cores : Z) (active_memory : float)
| CallDeactivate (now : datetime) (name : option (list string))
    (modified_before : option datetime) (reason : string).

(** The database after one call, whether it returned or raised. *)
Definition step (d : Database R) (c : Call) : Database R :=
  match c with
  | CallActivate nd mv qv u p t => snd (fst (activate nd mv qv u p t d))
  | CallUpdate now n w k a c m => snd (fst (update_resource_stats now n w k a c m d))
  | CallDeactivate now n mb reason => snd (fst (deactivate now n mb reason d))
  end.

Definition run (d : Database R) (calls : list Call) : Database R :=
  fold_left step calls d.

(** The status stored under a name: that of the first row carrying it. *)
Definition status_of (name : string) (d : Database R) : option ManagerStatusEnum :=
  match select_by_name name d with
  | [] => None
  | r :: _ => Some (ComputeManagerORM.status r)
  end.

(** Names are unique in the table (the invariant [activate] keeps). *)
Definition unique_names (d : Database R) : Prop :=
  NoDup (map ComputeManagerORM.name (manager_table d)).

End Socket.


Arguments save_snapshot orm : simpl never.
Arguments select_by_name {R} name d.
Arguments session_add_flush {R} orm d.
Arguments activate {R} column_default name_data manager_version qcengine_version
  username programs tags d.
Arguments write_back {R} name orm d.
Arguments update_resource_stats {R} now name total_worker_walltime
  total_task_walltime active_tasks active_cores active_memory d.
Arguments reset_orphans {R} reset_assigned reason deactivated_names rec.
Arguments deactivate {R} reset_assigned now name modified_before reason d.
Arguments get {R ManagerDict} get_general self name include exclude missing_ok d.
Arguments step {R} reset_assigned column_default d c.
Arguments run {R} reset_assigned column_default d calls.
Arguments status_of {R} name d.
Arguments unique_names {R} d.

(** ** The errors under the names the specification gives them *)

Definition InvalidManagerConfig_tags : exn :=
  ComputeManagerError
    "Manager does not have any tags assigned. Use '*' to match all tags" true.

Definition InvalidManagerConfig_programs : exn :=
  ComputeManagerError "Manager does not have any programs available" true.

Definition DuplicateManagerError : exn :=
  ComputeManagerError "A manager with this name already exists" true.

Definition UnknownManagerError (name : string) : exn :=
  ComputeManagerError
    ("Cannot update resource stats for manager " ++ name ++ " - does not exist")%string
    true.

Definition InactiveManagerError (name : string) : exn :=
  ComputeManagerError
    ("Cannot update resource stats for manager " ++ name ++ " - is not active")%string
    true.

Definition RequestTooLargeError (requested : nat) (limit : Z) : exn :=
  RuntimeError
    ("Request for " ++ str_of_nat requested ++ " managers is over the limit of "
     ++ str_of_int limit)%string.

(** ** Reference definitions, written from the specification's wording *)

(** "Deduplicate preserving first-seen order": keep the first occurrence of
    every element and drop the later ones. *)
Fixpoint dedup_first_seen (l : list string) : list string :=
  match l with
  | [] => []
  | x :: xs => x :: filter (fun y => negb (String.eqb y x)) (dedup_first_seen xs)
  end.

(** "Lower-case and drop empty-keyed programs", as a list of items. *)
Definition lowered_items (programs : dict (option string)) : dict (option string) :=
  map (fun kv => (lower (fst kv), snd kv))
      (filter (fun kv => nonempty (fst kv)) programs).

(** The value a list of items gives a key when read as a mapping: that of
    the last item with this key. *)
Fixpoint assoc_last {V} (k : string) (items : list (string * V)) : option V :=
  match items with
  | [] => None
  | (k', v) :: rest =>
      match assoc_last k rest with
      | Some v' => Some v'
      | None => if String.eqb k' k then Some v else None
      end
  end.

(** The deactivation filter as the specification words it: active, and
    name in the given set OR modified before the cutoff. *)
Definition deactivate_filter_spec (name : option (list string))
    (modified_before : option datetime) (r : ComputeManagerORM.t) : bool :=
  (status_eqb (ComputeManagerORM.status r) active
   && (existsb (String.eqb (ComputeManagerORM.name r))
               (match name with Some l => l | None => [] end)
       || match modified_before with
          | Some t => ComputeManagerORM.modified_on r <? t
          | None => false
          end))%bool.

(** The filter the code applies: active, and every filter that was
    supplied holds (a name set counts as supplied when it is not empty). *)
Definition deactivate_filter (name : option (list string))
    (modified_before : option datetime) (r : ComputeManagerORM.t) : bool :=
  (status_eqb (ComputeManagerORM.status r) active
   && (if truthy_names name
       then existsb (String.eqb (ComputeManagerORM.name r))
                    (match name with Some l => l | None => [] end)
       else true)
   && match modified_before with
      | Some t => ComputeManagerORM.modified_on r <? t
      | None => true
      end)%bool.

(** The object [update_resource_stats] holds once it has assigned the six
    attributes and saved the snapshot. *)
Definition heartbeat_row (now : datetime) (w k : float) (a c : Z) (mem : float)
    (manager : ComputeManagerORM.t) : ComputeManagerORM.t :=
  save_snapshot
    (ComputeManagerORM.set_modified_on now
       (ComputeManagerORM.set_active_memory mem
          (ComputeManagerORM.set_active_cores c
             (ComputeManagerORM.set_active_tasks a
                (ComputeManagerORM.set_total_task_walltime (PyTuple [PyFloat k])
                   (ComputeManagerORM.set_total_worker_walltime w manager)))))).

(** The statuses a name goes through while a list of calls runs. *)
Fixpoint status_trace {R} (reset_assigned : list string -> R -> list Z * R)
    (column_default : ComputeManagerORM.t) (name : string)
    (d : Database R) (calls : list Call) : list (option ManagerStatusEnum) :=
  status_of name d ::
  match calls with
  | [] => []
  | c :: calls' =>
      status_trace reset_assigned column_default name
        (step reset_assigned column_default d c) calls'
  end.

(** How often a trace of statuses passes from active to inactive, and from
    inactive to anything else. *)
Fixpoint count_deactivations (trace : list (option ManagerStatusEnum)) : nat :=
  match trace with
  | [] => 0
  | s :: rest =>
      match s, rest with
      | Some active, Some inactive :: _ => S (count_deactivations rest)
      | _, _ => count_deactivations rest
      end
  end.

Fixpoint count_reactivations (trace : list (option ManagerStatusEnum)) : nat :=
  match trace with
  | [] => 0
  | s :: rest =>
      match s, rest with
      | Some inactive, Some inactive :: _ => count_reactivations rest
      | Some inactive, _ :: _ => S (count_reactivations rest)
      | _, _ => count_reactivations rest
      end
  end.

(** ** Concrete instances used in the examples *)

(** A task subsystem that only records the calls made to it. *)
Definition call_recorder (manager_name : list string) (calls : list (list string))
  : list Z * list (list string) :=
  ([], calls ++ [manager_name]).

Definition zero : float := S754_zero false.
Definition two : float := S754_finite false 1 1.
Definition five : float := S754_finite false 5 0.

(** Column defaults: zeroed counters, creation time 0, empty log. *)
Definition defaults0 : ComputeManagerORM.t :=
  ComputeManagerORM.mk None "" "" "" None [] [] active "" ""
    0 0 0 0 zero (PyFloat zero) 0 0 zero 0 0 [].

Definition name_m1 : ManagerName.t := ManagerName.mk "m1" "c" "h".
Definition name_m2 : ManagerName.t := ManagerName.mk "m2" "c" "h".

(** A manager row with the given name, status and modification time. *)
Definition row (i : Z) (n : string) (s : ManagerStatusEnum) (t : datetime)
  : ComputeManagerORM.t :=
  ComputeManagerORM.mk (Some i) n "c" "h" None ["*"] [("psi4", None)] s "v" "v"
    0 0 0 0 zero (PyFloat zero) 0 0 zero 0 t [].

Definition db_empty : Database (list (list string)) := mkDatabase [] 1 [].

(** One active manager "m1", last modified at time 50. *)
Definition db_m1 : Database (list (list string)) :=
  mkDatabase [row 1 "m1" active 50] 2 [].

(** "m1" active and fresh, "m2" active and stale, "m3" already inactive. *)
Definition db_three : Database (list (list string)) :=
  mkDatabase [row 1 "m1" active 50; row 2 "m2" active 5; row 3 "m3" inactive 5] 4 [].

(** The life of "m1": registered, heartbeating, deactivated, and then a
    second registration, a heartbeat and a sweep, all of which find it
    inactive. *)
Definition life_of_m1 : list Call :=
  [CallActivate name_m1 "v" "v" None [("psi4", None)] ["*"];
   CallUpdate 10 "m1" five two 3 4 five;
   CallDeactivate 20 (Some ["m1"]) None "gone";
   CallActivate name_m1 "v" "v" None [("psi4", None)] ["*"];
   CallUpdate 30 "m1" five two 3 4 five;
   CallDeactivate 40 None (Some 100) "sweep"].

(** A lookup that answers every request with an empty page. *)
Definition get_general_none (_ : list ComputeManagerORM.t) (_ : list string)
    (_ _ : option (list string)) (_ : bool) : result (list (option unit)) :=
  Ok [].

(** ** The query surface *)

(** [QueryMetadata(n_found=..., n_returned=...)] as [query] builds it. *)
Record QueryMetadata : Type := mkQueryMetadata {
  n_found : Z;
  n_returned : Z
}.

(** The clauses [query] adds to [and_query] beside those [deactivate]
    uses: membership of the id, the cluster, the hostname and the status
    in a given collection, and [modified_on > value]. *)
Definition id_in_ (ids : list Z) (r : ComputeManagerORM.t) : bool :=
  match ComputeManagerORM.id r with
  | Some i => existsb (Z.eqb i) ids
  | None => false
  end.

Definition cluster_in_ (l : list string) (r : ComputeManagerORM.t) : bool :=
  existsb (String.eqb (ComputeManagerORM.cluster r)) l.

Definition hostname_in_ (l : list string) (r : ComputeManagerORM.t) : bool :=
  existsb (String.eqb (ComputeManagerORM.hostname r)) l.

Definition status_in_ (l : list ManagerStatusEnum) (r : ComputeManagerORM.t) : bool :=
  existsb (status_eqb (ComputeManagerORM.status r)) l.

Definition modified_on_gt (t : datetime) (r : ComputeManagerORM.t) : bool :=
  ComputeManagerORM.modified_on r >? t.

(** [and_query.append(clause)] when the argument [is not None]. *)
Definition append_if {A} (arg : option A) (clause : A -> ComputeManagerORM.t -> bool)
    (and_query : list (ComputeManagerORM.t -> bool))
  : list (ComputeManagerORM.t -> bool) :=
  match arg with
  | Some a => and_query ++ [clause a]
  | None => and_query
  end.

(** The list [and_query] that [query] builds, in the order of the source. *)
Definition query_and_query
    (manager_id : option (list Z)) (name cluster hostname : option (list string))
    (status : option (list ManagerStatusEnum))
    (modified_before modified_after : option datetime)
  : list (ComputeManagerORM.t -> bool) :=
  let and_query := [] in
  let and_query := append_if manager_id id_in_ and_query in
  let and_query := append_if name name_in_ and_query in
  let and_query := append_if hostname hostname_in_ and_query in
  let and_query := append_if cluster cluster_in_ and_query in
  let and_query := append_if status status_in_ and_query in
  let and_query := append_if modified_before modified_on_lt and_query in
  let and_query := append_if modified_after modified_on_gt and_query in
  and_query.

(** Modelled from the spec: [query.limit(limit).offset(skip).all()], the
    rows left once [skip] rows are passed over and at most [limit] kept;
    the rows come in table order.  The store refuses negative values, so
    the properties below are stated for non-negative ones. *)
Definition limit_offset {A} (limit skip : Z) (rows : list A) : list A :=
  firstn (Z.to_nat limit) (skipn (Z.to_nat skip) rows).

(** Modelled from the spec: [get_count(query)] of
    [qcfractal.db_socket.helpers], the number of rows the query selects
    (the total of the matches, before any pagination). *)
Definition get_count (rows : list ComputeManagerORM.t) : Z :=
  Z.of_nat (List.length rows).

Section Query.

Variable R : Type.

(** [calculate_limit] and [get_query_proj_options] of
    [qcfractal.db_socket.helpers] and the method [dict] of the ORM class
    are parameters: the limit in force given the configured one and the
    requested one, the projection for [include]/[exclude], and the
    dictionary of a row under a projection. *)
Variable ManagerDict : Type.
Variable ProjOptions : Type.
Variable calculate_limit : Z -> option Z -> Z.
Variable get_query_proj_options :
  option (list string) -> option (list string) -> ProjOptions.
Variable orm_dict : ProjOptions -> ComputeManagerORM.t -> ManagerDict.

(** [ManagerSocket.query]. *)
Definition query (self : ManagerSocket.t)
    (manager_id : option (list Z)) (name cluster hostname : option (list string))
    (status : option (list ManagerStatusEnum))
    (modified_before modified_after : option datetime)
    (include exclude : option (list string))
    (limit : option Z) (skip : Z) (d : Database R)
  : QueryMetadata * list ManagerDict :=
  let limit := calculate_limit (ManagerSocket._manager_limit self) limit in
  let proj_options := get_query_proj_options include exclude in
  let and_query :=
    query_and_query manager_id name cluster hostname status
      modified_before modified_after in
  let query := filter (and_ and_query) (manager_table d) in
  let n_found := get_count query in
  let results := limit_offset limit skip query in
  let result_dicts := map (orm_dict proj_options) results in
  let meta := mkQueryMetadata n_found (Z.of_nat (List.length result_dicts)) in
  (meta, result_dicts).

End Query.

Arguments query {R ManagerDict ProjOptions} calculate_limit get_query_proj_options
  orm_dict self manager_id name cluster hostname status modified_before
  modified_after include exclude limit skip d.

(** All the criteria of a query hold of a row ("all search criteria are
    merged via and"): each argument that is given constrains the row. *)
Definition query_matches
    (manager_id : option (list Z)) (name cluster hostname : option (list string))
    (status : option (list ManagerStatusEnum))
    (modified_before modified_after : option datetime)
    (r : ComputeManagerORM.t) : Prop :=
  (forall ids, manager_id = Some ids ->
     exists i, ComputeManagerORM.id r = Some i /\ In i ids)
  /\ (forall l, name = Some l -> In (ComputeManagerORM.name r) l)
  /\ (forall l, hostname = Some l -> In (ComputeManagerORM.hostname r) l)
  /\ (forall l, cluster = Some l -> In (ComputeManagerORM.cluster r) l)
  /\ (forall l, status = Some l -> In (ComputeManagerORM.status r) l)
  /\ (forall t, modified_before = Some t -> ComputeManagerORM.modified_on r < t)
  /\ (forall t, modified_after = Some t -> ComputeManagerORM.modified_on r > t).

(** One filter is at least as narrow as another: the other is absent, or
    they are the same. *)
Definition narrows {A} (given other : option A) : Prop :=
  other = None \/ given = other.

(** The log stored under a name: that of the first row carrying it. *)
Definition log_of {R} (name : string) (d : Database R)
  : option (list ComputeManagerLogORM.t) :=
  match select_by_name name d with
  | [] => None
  | r :: _ => Some (ComputeManagerORM.log r)
  end.

(** The number of successful heartbeats for a name in a list of calls run
    from a database. *)
Fixpoint heartbeats_accepted {R} (reset_assigned : list string -> R -> list Z * R)
    (column_default : ComputeManagerORM.t) (name : string)
    (d : Database R) (calls : list Call) : nat :=
  match calls with
  | [] => 0
  | c :: calls' =>
      (match c with
       | CallUpdate now n w k a cs m =>
           match fst (fst (update_resource_stats now n w k a cs m d)) with
           | Ok _ => if String.eqb n name then 1 else 0
           | Raise _ => 0
           end
       | _ => 0
       end
       + heartbeats_accepted reset_assigned column_default name
           (step reset_assigned column_default d c) calls')%nat
  end.

(** Instances for the examples: the limit clamped to the configured one,
    no projection, and the name of a row as its dictionary. *)
Definition clamp_limit (max_limit : Z) (given : option Z) : Z :=
  match given with
  | None => max_limit
  | Some g => Z.min g max_limit
  end.

Definition no_projection (_ _ : option (list string)) : unit := tt.

Definition name_only (_ : unit) (r : ComputeManagerORM.t) : string :=
  ComputeManagerORM.name r.

(** What a clause contributes to the conjunction: its verdict when the
    argument is given, nothing otherwise. *)
Definition opt_clause {A} (arg : option A) (clause : A -> ComputeManagerORM.t -> bool)
    (r : ComputeManagerORM.t) : bool :=
  match arg with
  | Some a => clause a r
  | None => true
  end.

(** ** The queue adapter and the collections (client side) *)

(** The built-in exceptions these modules raise, and the outcome of a
    call that may raise one. *)
Inductive pyerror : Type :=
| ValueError (msg : string)
| KeyError (msg : string)
| ImportError (msg : string)
| AttributeError (msg : string).

Inductive pyresult (A : Type) : Type :=
| Returns (a : A)
| Raises (e : pyerror).
Arguments Returns {A} a.
Arguments Raises {A} e.

(** [s.split(".", 1)]: the string itself when it holds no dot, else the
    part before the first dot and the part after it. *)
Fixpoint split_dot_once (s : string) : list string :=
  match s with
  | EmptyString => [EmptyString]
  | String c s' =>
      if Ascii.eqb c "."%char then [EmptyString; s']
      else match split_dot_once s' with
           | [whole] => [String c whole]
           | before :: rest => String c before :: rest
           | [] => []
           end
  end.

(** ["." in s]. *)
Fixpoint has_dot (s : string) : bool :=
  match s with
  | EmptyString => false
  | String c s' => (Ascii.eqb c "."%char || has_dot s')%bool
  end.

(** [range(0, stop, step)] as the loop it stands for: the values
    [0, step, 2*step, ...] below [stop] for a positive step, none for a
    negative one, and [ValueError] for a zero step. *)
Fixpoint range_loop (fuel i stop step : nat) : list nat :=
  match fuel with
  | O => []
  | S fuel' =>
      if Nat.ltb i stop then i :: range_loop fuel' (i + step) stop step else []
  end.

Definition range0 (stop : nat) (step : Z) : pyresult (list nat) :=
  if step =? 0 then Raises (ValueError "range() arg 3 must not be zero")
  else if step <? 0 then Returns []
  else Returns (range_loop stop 0 stop (Z.to_nat step)).

(** [l[i : j]] for indices that are not negative. *)
Definition slice {A} (l : list A) (i j : nat) : list A :=
  firstn (j - i) (skipn i l).

Module BaseAdapter.

(** The attributes [__init__] sets; [client] and [logger] are kept as
    they are given. *)
Record t (Client Logger Callable Task V : Type) : Type := mk {
  client : Client;
  logger : Logger;
  queue : dict Task;
  function_map : dict Callable;
  cores_per_task : option V;
  memory_per_task : option V
}.
Arguments mk {Client Logger Callable Task V} _ _ _ _ _ _.
Arguments client {Client Logger Callable Task V} _.
Arguments logger {Client Logger Callable Task V} _.
Arguments queue {Client Logger Callable Task V} _.
Arguments function_map {Client Logger Callable Task V} _.
Arguments cores_per_task {Client Logger Callable Task V} _.
Arguments memory_per_task {Client Logger Callable Task V} _.

Section Adapter.

Variables Client Logger Callable Task V Module_ : Type.

(** [logging.getLogger(self.__class__.__name__)], [importlib.import_module]
    and [operator.attrgetter(func_name)(module)]. *)
Variable getLogger : Logger.
Variable import_module : string -> pyresult Module_.
Variable attrgetter : string -> Module_ -> pyresult Callable.

(** [BaseAdapter.__init__]; [kwargs.pop(key, None)] reads the keyword. *)
Definition __init__ (client : Client) (logger : option Logger) (kwargs : dict V)
  : t Client Logger Callable Task V :=
  mk client
     (match logger with Some l => l | None => getLogger end)
     [] []
     (Py.get "cores_per_task" kwargs)
     (Py.get "memory_per_task" kwargs).

Definition set_function_map (fm : dict Callable) (self : t Client Logger Callable Task V)
  : t Client Logger Callable Task V :=
  mk (client self) (logger self) (queue self) fm (cores_per_task self)
     (memory_per_task self).

(** [BaseAdapter.get_function]. *)
Definition get_function (self : t Client Logger Callable Task V) (function : string)
  : pyresult Callable * t Client Logger Callable Task V :=
  match Py.get function (function_map self) with
  | Some f => (Returns f, self)
  | None =>
      match split_dot_once function with
      | [module_name; func_name] =>
          match import_module module_name with
          | Raises e => (Raises e, self)
          | Returns module =>
              match attrgetter func_name module with
              | Raises e => (Raises e, self)
              | Returns f =>
                  let self := set_function_map (setitem function f (function_map self)) self in
                  match Py.get function (function_map self) with
                  | Some f' => (Returns f', self)
                  | None => (Raises (KeyError function), self)
                  end
              end
          end
      | _ => (Raises (ValueError "not enough values to unpack (expected 2, got 1)"), self)
      end
  end.

(** [BaseAdapter.qcengine_local_options]. *)
Definition qcengine_local_options (self : t Client Logger Callable Task V) : dict V :=
  let local_options := [] in
  let local_options :=
    match memory_per_task self with
    | Some m => setitem "memory" m local_options
    | None => local_options
    end in
  let local_options :=
    match cores_per_task self with
    | Some c => setitem "ncores" c local_options
    | None => local_options
    end in
  local_options.

(** [BaseAdapter.list_tasks] and [BaseAdapter.task_count]. *)
Definition list_tasks (self : t Client Logger Callable Task V) : list string :=
  keys (queue self).

Definition task_count (self : t Client Logger Callable Task V) : nat :=
  List.length (queue self).

End Adapter.

Arguments __init__ {Client Logger Callable Task V} getLogger client logger kwargs.
Arguments set_function_map {Client Logger Callable Task V} fm self.
Arguments get_function {Client Logger Callable Task V Module_} import_module attrgetter
  self function.
Arguments qcengine_local_options {Client Logger Callable Task V} self.
Arguments list_tasks {Client Logger Callable Task V} self.
Arguments task_count {Client Logger Callable Task V} self.

End BaseAdapter.

Module Collection.

(** The two members of the client the static method uses. *)
Record PortalClient (Mol Id : Type) : Type := mkClient {
  query_limit : Z;
  add_molecules : list Mol -> list Id
}.
Arguments mkClient {Mol Id} _ _.
Arguments query_limit {Mol Id} _.
Arguments add_molecules {Mol Id} _.

(** [Collection._add_molecules_by_dict]. *)
Definition _add_molecules_by_dict {Mol Id} (client : PortalClient Mol Id)
    (molecules : dict Mol) : pyresult (dict Id) :=
  let flat_map_keys := map fst molecules in
  let flat_map_mols := map snd molecules in
  let CHUNK_SIZE := query_limit client in
  match range0 (List.length flat_map_mols) CHUNK_SIZE with
  | Raises e => Raises e
  | Returns starts =>
      let mol_ret :=
        fold_left
          (fun mol_ret i =>
             mol_ret ++ add_molecules client
                          (slice flat_map_mols i (i + Z.to_nat CHUNK_SIZE)))
          starts [] in
      Returns (update [] (combine flat_map_keys mol_ret))
  end.

(** A specification and an entry of a procedure dataset, with the
    attributes the methods read. *)
Record Spec : Type := mkSpec {
  spec_name : string;
  description : string
}.

Record Entry (ObjectId : Type) : Type := mkEntry {
  entry_name : string;
  object_map : dict ObjectId
}.
Arguments mkEntry {ObjectId} _ _.
Arguments entry_name {ObjectId} _.
Arguments object_map {ObjectId} _.

(** The fields [BaseProcedureDataset._DataModel] adds. *)
Record DataModel (ObjectId : Type) : Type := mkDataModel {
  records : dict (Entry ObjectId);
  history : list string;
  specs : dict Spec
}.
Arguments mkDataModel {ObjectId} _ _ _.
Arguments records {ObjectId} _.
Arguments history {ObjectId} _.
Arguments specs {ObjectId} _.

(** [BaseProcedureDataset.get_specification]. *)
Definition get_specification {ObjectId} (_data : DataModel ObjectId) (name : string)
  : pyresult Spec :=
  match Py.get (lower name) (specs _data) with
  | Some spec => Returns spec
  | None => Raises (KeyError ("Specification '" ++ name ++ "' not found.")%string)
  end.

(** [BaseProcedureDataset._get_index]. *)
Definition _get_index {ObjectId} (_data : DataModel ObjectId) : list string :=
  map (fun kv => entry_name (snd kv)) (records _data).

(** [if sieve] on an optional list. *)
Definition truthy_sieve (sieve : option (list string)) : bool :=
  match sieve with
  | Some (_ :: _) => true
  | _ => false
  end.

(** [BaseProcedureDataset._get_procedure_ids]. *)
Definition _get_procedure_ids {ObjectId} (_data : DataModel ObjectId) (spec : string)
    (sieve : option (list string)) : pyresult (dict ObjectId) :=
  match get_specification _data spec with
  | Raises e => Raises e
  | Returns spec =>
      Returns
        (fold_left
           (fun mapper kv =>
              let rec := snd kv in
              if (truthy_sieve sieve
                  && negb (mem (entry_name rec)
                               (match sieve with Some l => l | None => [] end)))%bool
              then mapper
              else match Py.get (spec_name spec) (object_map rec) with
                   | Some td_id => setitem (entry_name rec) td_id mapper
                   | None => mapper
                   end)
           (records _data) [])
  end.

End Collection.

(** Instances for the examples: an importer that knows the module
    [numpy] with the attributes [einsum] and [linalg.norm], and a client
    that uploads molecules two at a time and numbers them by their size. *)
Definition import_numpy (module_name : string) : pyresult unit :=
  if String.eqb module_name "numpy" then Returns tt
  else Raises (ImportError ("No module named '" ++ module_name ++ "'")%string).

Definition attr_numpy (func_name : string) (_ : unit) : pyresult string :=
  if (String.eqb func_name "einsum" || String.eqb func_name "linalg.norm")%bool
  then Returns ("<function " ++ func_name ++ ">")%string
  else Raises (AttributeError func_name).

Definition import_nothing (module_name : string) : pyresult unit :=
  Raises (ImportError module_name).

Definition adapter0 : BaseAdapter.t unit unit string unit Z :=
  BaseAdapter.__init__ tt tt None [("cores_per_task", 4)].

Definition client_by_two : Collection.PortalClient nat Z :=
  Collection.mkClient 2 (map Z.of_nat).

Definition dataset0 : Collection.DataModel Z :=
  Collection.mkDataModel
    [("water", Collection.mkEntry "Water" [("default", 11); ("b3lyp", 12)]);
     ("neon", Collection.mkEntry "Neon" [("b3lyp", 22)])]
    []
    [("default", Collection.mkSpec "default" "the default");
     ("b3lyp", Collection.mkSpec "b3lyp" "dft")].

(** * Properties *)

(** ** Strings *)

Lemma lower_ascii_idem (c : ascii) : lower_ascii (lower_ascii c) = lower_ascii c.
Proof. destruct c as [[] [] [] [] [] [] [] []]; reflexivity. Qed.

Lemma lower_idem (s : string) : lower (lower s) = lower s.
Proof.
  induction s as [|c s IH]; simpl; [reflexivity|].
  now rewrite lower_ascii_idem, IH.
Qed.

Lemma nonempty_lower (s : string) : nonempty (lower s) = nonempty s.
Proof. destruct s; reflexivity. Qed.

Lemma nonempty_true (s : string) : nonempty s = true <-> s <> "".
Proof.
  destruct s; simpl; split; intro H; try reflexivity; try discriminate.
  now elim H.
Qed.

(** ** Dictionaries *)

Section DictFacts.

Context {V : Type}.
Implicit Types (d : dict V) (k : string) (v : V).

Lemma mem_In k l : mem k l = true <-> In k l.
Proof.
  unfold mem. rewrite existsb_exists. split.
  - intros (x & Hx & E). apply String.eqb_eq in E. now subst.
  - intros H. exists k. split; [assumption | apply String.eqb_refl].
Qed.

Lemma mem_app k l1 l2 : mem k (l1 ++ l2) = (mem k l1 || mem k l2)%bool.
Proof. apply existsb_app. Qed.

Lemma setitem_not_nil k v d : setitem k v d <> [].
Proof. destruct d as [|[k' v'] d]; simpl; [|destruct (String.eqb k' k)]; discriminate. Qed.

Lemma keys_setitem k v d :
  keys (setitem k v d) = if mem k (keys d) then keys d else keys d ++ [k].
Proof.
  induction d as [|[k' v'] d IH]; simpl; [reflexivity|].
  rewrite (String.eqb_sym k k').
  destruct (String.eqb k' k) eqn:E; simpl; [reflexivity|].
  unfold keys in *. rewrite IH. now destruct (mem k (map fst d)).
Qed.

Lemma get_setitem k k' v d :
  Py.get k (setitem k' v d) = if String.eqb k' k then Some v else Py.get k d.
Proof.
  induction d as [|[k0 v0] d IH]; simpl; [reflexivity|].
  destruct (String.eqb k0 k') eqn:E; simpl.
  - apply String.eqb_eq in E. subst k0. now destruct (String.eqb k' k).
  - rewrite IH. destruct (String.eqb k0 k) eqn:E0; [|reflexivity].
    apply String.eqb_eq in E0. subst k0. rewrite String.eqb_sym in E. now rewrite E.
Qed.

Lemma update_nil_iff d items : update d items = [] <-> d = [] /\ items = [].
Proof.
  unfold update. revert d. induction items as [|[k v] items IH]; intros d; simpl.
  - tauto.
  - rewrite IH. split; [intros [H _]; now apply setitem_not_nil in H|].
    intros [_ H]. discriminate.
Qed.

Lemma get_update k d items :
  Py.get k (update d items) =
  match assoc_last k items with
  | Some v => Some v
  | None => Py.get k d
  end.
Proof.
  unfold update. revert d. induction items as [|[k' v] items IH]; intros d; simpl.
  - reflexivity.
  - rewrite IH. destruct (assoc_last k items); [reflexivity|].
    rewrite get_setitem. now destruct (String.eqb k' k).
Qed.

End DictFacts.

(** ** First-seen deduplication *)

Lemma filter_filter_comm {A} (p q : A -> bool) (l : list A) :
  filter p (filter q l) = filter q (filter p l).
Proof.
  induction l as [|x l IH]; simpl; [reflexivity|].
  destruct (p x) eqn:Ep, (q x) eqn:Eq; simpl; rewrite ?Ep, ?Eq, IH; reflexivity.
Qed.

Lemma filter_andb {A} (p q : A -> bool) (l : list A) :
  filter p (filter q l) = filter (fun x => (p x && q x)%bool) l.
Proof.
  induction l as [|x l IH]; simpl; [reflexivity|].
  destruct (q x) eqn:Eq; simpl; rewrite ?andb_true_r, ?andb_false_r, IH;
    [destruct (p x)|]; reflexivity.
Qed.

Lemma filter_all {A} (p : A -> bool) (l : list A) :
  (forall x, In x l -> p x = true) -> filter p l = l.
Proof.
  induction l as [|x l IH]; simpl; intros H; [reflexivity|].
  rewrite (H x (or_introl eq_refl)), IH; auto.
Qed.

Lemma dedup_first_seen_filter (p : string -> bool) (l : list string) :
  dedup_first_seen (filter p l) = filter p (dedup_first_seen l).
Proof.
  induction l as [|x l IH]; simpl; [reflexivity|].
  destruct (p x) eqn:Ep; simpl; rewrite ?Ep, IH.
  - now rewrite filter_filter_comm.
  - rewrite filter_filter_comm. symmetry. apply filter_all.
    intros y Hy. apply filter_In in Hy. destruct Hy as [_ Hy].
    destruct (String.eqb_spec y x) as [->|]; [congruence | reflexivity].
Qed.

Lemma dedup_first_seen_In (x : string) (l : list string) :
  In x (dedup_first_seen l) <-> In x l.
Proof.
  induction l as [|y l IH]; simpl; [tauto|].
  rewrite filter_In, IH. split.
  - intros [H | [H _]]; auto.
  - intros [H | H]; auto.
    destruct (String.eqb_spec x y) as [->|]; auto.
Qed.

Lemma dedup_first_seen_NoDup (l : list string) : NoDup (dedup_first_seen l).
Proof.
  induction l as [|y l IH]; simpl; constructor.
  - rewrite filter_In. intros [_ H]. now rewrite String.eqb_refl in H.
  - now apply NoDup_filter.
Qed.

Lemma dedup_first_seen_id (l : list string) : NoDup l -> dedup_first_seen l = l.
Proof.
  induction 1 as [|x l Hx Hl IH]; simpl; [reflexivity|].
  rewrite IH. f_equal. apply filter_all.
  intros y Hy. destruct (String.eqb_spec y x) as [->|]; [contradiction | reflexivity].
Qed.

(** The keys of an updated dictionary: the old keys, then the new keys in
    the order they were first seen. *)
Lemma keys_update {V} (d : dict V) (items : list (string * V)) :
  keys (update d items) =
  keys d ++ dedup_first_seen (filter (fun k => negb (mem k (keys d))) (map fst items)).
Proof.
  unfold update. revert d. induction items as [|[k v] items IH]; intros d; simpl.
  - now rewrite app_nil_r.
  - rewrite IH, keys_setitem. destruct (mem k (keys d)) eqn:E; simpl; [reflexivity|].
    rewrite <- app_assoc. simpl. do 2 f_equal.
    rewrite <- dedup_first_seen_filter, filter_andb. f_equal.
    apply filter_ext. intros y. rewrite mem_app. simpl.
    rewrite orb_false_r, negb_orb. apply andb_comm.
Qed.

(** [list(dict.fromkeys(l))] removes duplicates, keeping first-seen order. *)
Lemma keys_fromkeys (l : list string) : keys (fromkeys l) = dedup_first_seen l.
Proof.
  assert (E : fromkeys l = update [] (map (fun k => (k, tt)) l)).
  { unfold fromkeys, update. generalize (@nil (string * unit)).
    induction l as [|x l IH]; intros acc; simpl; [reflexivity | apply IH]. }
  rewrite E, keys_update. simpl. rewrite map_map. simpl. rewrite map_id.
  now rewrite filter_all.
Qed.

(** ** Activation: what is stored *)

Lemma strip_programs_update (programs : dict (option string)) :
  strip_programs programs = update [] (lowered_items programs).
Proof.
  unfold strip_programs, update, lowered_items.
  generalize (@nil (string * option string)).
  induction programs as [|[k v] programs IH]; intros acc; simpl; [reflexivity|].
  destruct (nonempty k); simpl; apply IH.
Qed.

Lemma keys_strip_programs (programs : dict (option string)) :
  keys (strip_programs programs)
  = dedup_first_seen (map fst (lowered_items programs)).
Proof.
  rewrite strip_programs_update, keys_update.
  rewrite (filter_all (fun k => negb (mem k (keys [])))) by reflexivity.
  reflexivity.
Qed.

Lemma get_strip_programs (programs : dict (option string)) (k : string) :
  Py.get k (strip_programs programs) = assoc_last k (lowered_items programs).
Proof.
  rewrite strip_programs_update, get_update.
  now destruct (assoc_last k (lowered_items programs)).
Qed.

Lemma strip_programs_nil_iff (programs : dict (option string)) :
  strip_programs programs = [] <->
  filter (fun kv => nonempty (fst kv)) programs = [].
Proof.
  rewrite strip_programs_update, update_nil_iff. unfold lowered_items.
  split; [intros [_ H]; now apply map_eq_nil in H | intros ->; now split].
Qed.

Lemma strip_tags_nil_iff (tags : list string) :
  strip_tags tags = [] <-> filter nonempty tags = [].
Proof.
  unfold strip_tags. split; [apply map_eq_nil | now intros ->].
Qed.

Lemma length_zero_eqb {A} (l : list A) :
  Nat.eqb (List.length l) 0 = true <-> l = [].
Proof. destruct l; simpl; split; congruence. Qed.

Lemma strip_tags_clean (tags : list string) (t : string) :
  In t (strip_tags tags) -> t <> "" /\ lower t = t.
Proof.
  unfold strip_tags. rewrite in_map_iff. intros (x & <- & Hx).
  apply filter_In in Hx. destruct Hx as [_ Hx]. split.
  - apply nonempty_true. now rewrite nonempty_lower.
  - apply lower_idem.
Qed.

Lemma lowered_items_clean (programs : dict (option string)) (k : string) :
  In k (map fst (lowered_items programs)) -> k <> "" /\ lower k = k.
Proof.
  unfold lowered_items. rewrite map_map, in_map_iff. simpl.
  intros ([x v] & <- & Hx). apply filter_In in Hx. destruct Hx as [_ Hx].
  simpl in *. split.
  - apply nonempty_true. now rewrite nonempty_lower.
  - apply lower_idem.
Qed.

(** The three ways [activate] ends. *)
Lemma activate_cases {R} cd nd mv qv u programs tags (d : Database R) :
  let out := activate cd nd mv qv u programs tags d in
  (strip_tags tags = [] /\ out = (Raise InvalidManagerConfig_tags, d, []))
  \/ (strip_tags tags <> [] /\ strip_programs programs = []
      /\ out = (Raise InvalidManagerConfig_programs, d, []))
  \/ (strip_tags tags <> [] /\ strip_programs programs <> []
      /\ select_by_name (ManagerName.fullname nd) d <> []
      /\ out = (Raise DuplicateManagerError, d,
                [(WARNING,
                  "Cannot activate duplicate manager: " ++ ManagerName.fullname nd)%string]))
  \/ (strip_tags tags <> [] /\ strip_programs programs <> []
      /\ select_by_name (ManagerName.fullname nd) d = []
      /\ exists row,
          out = (Ok (Some (manager_id_seq d)),
                 mkDatabase (manager_table d ++ [row]) (manager_id_seq d + 1) (records d),
                 [])
          /\ ComputeManagerORM.id row = Some (manager_id_seq d)
          /\ ComputeManagerORM.name row = ManagerName.fullname nd
          /\ ComputeManagerORM.status row = active
          /\ ComputeManagerORM.tags row = keys (fromkeys (strip_tags tags))
          /\ ComputeManagerORM.programs row = strip_programs programs).
Proof.
  unfold activate. cbv zeta.
  destruct (Nat.eqb (List.length (strip_tags tags)) 0) eqn:Et.
  { left. apply length_zero_eqb in Et. now split. }
  assert (Ht : strip_tags tags <> []).
  { intros H. apply length_zero_eqb in H. congruence. }
  right.
  destruct (Nat.eqb (List.length (strip_programs programs)) 0) eqn:Ep.
  { left. apply length_zero_eqb in Ep. now repeat split. }
  assert (Hp : strip_programs programs <> []).
  { intros H. apply length_zero_eqb in H. congruence. }
  right. unfold get_count_2.
  destruct (select_by_name (ManagerName.fullname nd) d) as [|r rs] eqn:Es.
  - right. simpl. repeat split; auto.
    eexists. repeat split.
  - left. replace (Z.of_nat (List.length (r :: rs)) >? 0) with true.
    + repeat split; auto. discriminate.
    + symmetry. apply Z.gtb_lt. simpl List.length. lia.
Qed.

(** C7: a successful [activate] stores the tags lower-cased, without empty
    strings and without duplicates, in first-seen order; and the programs
    with empty keys dropped and keys lower-cased (read as a mapping: later
    items override earlier ones, keys in first-seen order). *)
Theorem activate_stores_normalised_capabilities
    {R} cd nd mv qv u programs tags (d d' : Database R) i lg :
  activate cd nd mv qv u programs tags d = (Ok i, d', lg) ->
  exists row,
    manager_table d' = manager_table d ++ [row]
    /\ ComputeManagerORM.id row = i
    /\ ComputeManagerORM.tags row
       = dedup_first_seen (map lower (filter nonempty tags))
    /\ NoDup (ComputeManagerORM.tags row)
    /\ (forall t, In t (ComputeManagerORM.tags row) -> t <> "" /\ lower t = t)
    /\ keys (ComputeManagerORM.programs row)
       = dedup_first_seen (map fst (lowered_items programs))
    /\ (forall k, Py.get k (ComputeManagerORM.programs row)
                  = assoc_last k (lowered_items programs))
    /\ (forall k, In k (keys (ComputeManagerORM.programs row)) ->
                  k <> "" /\ lower k = k).
Proof.
  intros H.
  destruct (activate_cases cd nd mv qv u programs tags d)
    as [[_ E] | [(_ & _ & E) | [(_ & _ & _ & E) | (_ & _ & _ & row & E & Hid & _ & _ & Htags & Hprog)]]];
    cbv zeta in E; rewrite E in H; try discriminate.
  injection H as <- <- <-. exists row. simpl.
  rewrite Htags, Hprog, keys_fromkeys, keys_strip_programs.
  refine (conj eq_refl (conj Hid (conj eq_refl (conj _ (conj _ (conj eq_refl (conj _ _))))))).
  - apply dedup_first_seen_NoDup.
  - intros t Ht. apply (strip_tags_clean tags). now apply dedup_first_seen_In.
  - intros k. apply get_strip_programs.
  - intros k Hk. apply (lowered_items_clean programs). now apply dedup_first_seen_In.
Qed.

Lemma activate_stores_normalised_capabilities_witness :
  activate defaults0 name_m1 "v" "v" None
    [("PSI4", Some "1.4"); ("", None); ("psi4", None); ("Rdkit", None)]
    ["B"; ""; "a"; "b"; "A"] db_empty
  = (Ok (Some 1),
     mkDatabase
       [ComputeManagerORM.mk (Some 1) "m1" "c" "h" None ["b"; "a"]
          [("psi4", None); ("rdkit", None)] active "v" "v"
          0 0 0 0 zero (PyFloat zero) 0 0 zero 0 0 []] 2 [],
     [])
  /\ exists row,
       [ComputeManagerORM.mk (Some 1) "m1" "c" "h" None ["b"; "a"]
          [("psi4", None); ("rdkit", None)] active "v" "v"
          0 0 0 0 zero (PyFloat zero) 0 0 zero 0 0 []] = [] ++ [row]
       /\ ComputeManagerORM.tags row = ["b"; "a"]
       /\ keys (ComputeManagerORM.programs row) = ["psi4"; "rdkit"].
Proof.
  split; [reflexivity|].
  destruct (activate_stores_normalised_capabilities
              defaults0 name_m1 "v" "v" None
              [("PSI4", Some "1.4"); ("", None); ("psi4", None); ("Rdkit", None)]
              ["B"; ""; "a"; "b"; "A"] db_empty _ _ _ eq_refl)
    as (row & Ht & _ & Htags & _ & _ & Hkeys & _).
  exists row. repeat split; assumption.
Defined.

(** C8: when no tag or no program is left after the blanks are dropped,
    [activate] raises the validation error and the database is as before. *)
Theorem activate_rejects_empty_capabilities
    {R} cd nd mv qv u programs tags (d : Database R) :
  filter nonempty tags = []
  \/ filter (fun kv => nonempty (fst kv)) programs = [] ->
  activate cd nd mv qv u programs tags d
  = (Raise (if Nat.eqb (List.length (filter nonempty tags)) 0
            then InvalidManagerConfig_tags
            else InvalidManagerConfig_programs),
     d, []).
Proof.
  intros H.
  destruct (activate_cases cd nd mv qv u programs tags d)
    as [[Ht E] | [(Ht & Hp & E) | [(Ht & Hp & _) | (Ht & Hp & _)]]].
  - cbv zeta in E. rewrite E. apply strip_tags_nil_iff in Ht. now rewrite Ht.
  - cbv zeta in E. rewrite E.
    destruct (Nat.eqb (List.length (filter nonempty tags)) 0) eqn:El; [|reflexivity].
    apply length_zero_eqb in El. apply strip_tags_nil_iff in El. contradiction.
  - exfalso. destruct H as [H | H].
    + now apply strip_tags_nil_iff in H.
    + now apply strip_programs_nil_iff in H.
  - exfalso. destruct H as [H | H].
    + now apply strip_tags_nil_iff in H.
    + now apply strip_programs_nil_iff in H.
Qed.

Lemma activate_rejects_empty_capabilities_witness :
  (filter nonempty [""; ""] = []
   \/ filter (fun kv : string * option string => nonempty (fst kv))
        [("psi4", None)] = [])
  /\ activate defaults0 name_m2 "v" "v" None [("psi4", None)] [""; ""] db_m1
     = (Raise InvalidManagerConfig_tags, db_m1, []).
Proof.
  split; [left; reflexivity|].
  apply (activate_rejects_empty_capabilities
           defaults0 name_m2 "v" "v" None [("psi4", None)] [""; ""] db_m1).
  left. reflexivity.
Defined.

(** ** Activation: uniqueness of names *)

Lemma select_by_name_In {R} (n : string) (d : Database R) (r : ComputeManagerORM.t) :
  In r (select_by_name n d) <-> In r (manager_table d) /\ ComputeManagerORM.name r = n.
Proof.
  unfold select_by_name. rewrite filter_In. now rewrite String.eqb_eq.
Qed.

Lemma select_by_name_nil_iff {R} (n : string) (d : Database R) :
  select_by_name n d = [] <-> ~ In n (map ComputeManagerORM.name (manager_table d)).
Proof.
  rewrite in_map_iff. split.
  - intros E (r & Hn & Hr).
    assert (H : In r (select_by_name n d)) by now apply select_by_name_In.
    rewrite E in H. contradiction.
  - intros H. destruct (select_by_name n d) as [|r rs] eqn:E; [reflexivity|].
    exfalso. apply H. exists r.
    assert (Hr : In r (select_by_name n d)) by (rewrite E; now left).
    apply select_by_name_In in Hr. tauto.
Qed.

(** [activate] keeps the names of the table pairwise distinct. *)
Lemma activate_unique_names {R} cd nd mv qv u programs tags (d : Database R) :
  unique_names d ->
  unique_names (snd (fst (activate cd nd mv qv u programs tags d))).
Proof.
  intros Hu.
  destruct (activate_cases cd nd mv qv u programs tags d)
    as [[_ E] | [(_ & _ & E) | [(_ & _ & _ & E) | (_ & _ & Hs & row & E & _ & Hn & _)]]];
    cbv zeta in E; rewrite E; simpl; try assumption.
  unfold unique_names in *. simpl. rewrite map_app. simpl.
  apply select_by_name_nil_iff in Hs. rewrite <- Hn in Hs.
  clear E Hn. revert Hu Hs. generalize (ComputeManagerORM.name row).
  generalize (map ComputeManagerORM.name (manager_table d)).
  intros l n Hl Hfresh. induction Hl as [|x l Hx Hl IH]; simpl.
  - constructor; [intros [] | constructor].
  - constructor.
    + rewrite in_app_iff. intros [H | [H | []]]; [contradiction|].
      apply Hfresh. now left.
    + apply IH. intros H. apply Hfresh. now right.
Qed.

(** C6 (amended): for an input that passes validation (some tag and some
    program remain once the blanks are dropped), [activate] raises
    [DuplicateManagerError] and leaves the database as it was when a
    manager of that name exists; when the name is fresh it appends exactly
    one row, active, under that name, and returns the id the row was
    given.  Names stay pairwise distinct either way. *)
Theorem activate_duplicate_or_insert
    {R} cd nd mv qv u programs tags (d : Database R) :
  filter nonempty tags <> [] ->
  filter (fun kv => nonempty (fst kv)) programs <> [] ->
  (In (ManagerName.fullname nd) (map ComputeManagerORM.name (manager_table d)) ->
   activate cd nd mv qv u programs tags d
   = (Raise DuplicateManagerError, d,
      [(WARNING, "Cannot activate duplicate manager: " ++ ManagerName.fullname nd)%string]))
  /\ (~ In (ManagerName.fullname nd) (map ComputeManagerORM.name (manager_table d)) ->
      exists row,
        activate cd nd mv qv u programs tags d
        = (Ok (ComputeManagerORM.id row),
           mkDatabase (manager_table d ++ [row]) (manager_id_seq d + 1) (records d),
           [])
        /\ ComputeManagerORM.id row = Some (manager_id_seq d)
        /\ ComputeManagerORM.name row = ManagerName.fullname nd
        /\ ComputeManagerORM.status row = active)
  /\ (unique_names d ->
      unique_names (snd (fst (activate cd nd mv qv u programs tags d)))).
Proof.
  intros Ht Hp.
  rewrite <- strip_tags_nil_iff in Ht. rewrite <- strip_programs_nil_iff in Hp.
  rewrite <- select_by_name_nil_iff.
  split; [|split]; [| |apply activate_unique_names].
  - intros Hin.
    destruct (activate_cases cd nd mv qv u programs tags d)
      as [[? _] | [(_ & ? & _) | [(_ & _ & _ & E) | (_ & _ & Hs & _)]]];
      try contradiction.
    + exact E.
    + apply select_by_name_nil_iff in Hs. contradiction.
  - intros Hs.
    destruct (activate_cases cd nd mv qv u programs tags d)
      as [[? _] | [(_ & ? & _) | [(_ & _ & ? & _) | (_ & _ & _ & row & E & Hid & Hn & Hst & _)]]];
      try contradiction.
    exists row. rewrite Hid. auto.
Qed.

Lemma activate_duplicate_or_insert_witness :
  (filter nonempty ["*"] <> []
   /\ filter (fun kv : string * option string => nonempty (fst kv)) [("psi4", None)] <> [])
  /\ activate defaults0 name_m1 "v" "v" None [("psi4", None)] ["*"] db_m1
     = (Raise DuplicateManagerError, db_m1,
        [(WARNING, "Cannot activate duplicate manager: m1")])
  /\ exists row,
       activate defaults0 name_m2 "v" "v" None [("psi4", None)] ["*"] db_m1
       = (Ok (ComputeManagerORM.id row),
          mkDatabase (manager_table db_m1 ++ [row]) 3 [], [])
       /\ ComputeManagerORM.id row = Some 2
       /\ ComputeManagerORM.name row = "m2"
       /\ ComputeManagerORM.status row = active.
Proof.
  assert (Ht : filter nonempty ["*"] <> []) by discriminate.
  assert (Hp : filter (fun kv : string * option string => nonempty (fst kv))
                      [("psi4", None)] <> []) by discriminate.
  split; [now split|]. split.
  - apply (activate_duplicate_or_insert
             defaults0 name_m1 "v" "v" None [("psi4", None)] ["*"] db_m1 Ht Hp).
    simpl. now left.
  - apply (activate_duplicate_or_insert
             defaults0 name_m2 "v" "v" None [("psi4", None)] ["*"] db_m1 Ht Hp).
    simpl. intros [H | []]. discriminate.
Defined.

(** C6 as first stated fails on an input that does not pass validation:
    the name "m1" exists, yet the call with only blank tags raises the
    validation error, not [DuplicateManagerError]; and with the fresh name
    "m2" the same tags insert nothing. *)
Lemma activate_validation_precedes_name_check :
  In "m1" (map ComputeManagerORM.name (manager_table db_m1))
  /\ fst (fst (activate defaults0 name_m1 "v" "v" None [("psi4", None)] [""] db_m1))
     = Raise InvalidManagerConfig_tags
  /\ Raise (A := option Z) InvalidManagerConfig_tags <> Raise DuplicateManagerError
  /\ ~ In "m2" (map ComputeManagerORM.name (manager_table db_m1))
  /\ activate defaults0 name_m2 "v" "v" None [("psi4", None)] [""] db_m1
     = (Raise InvalidManagerConfig_tags, db_m1, []).
Proof.
  split; [now left|]. split; [reflexivity|]. split; [discriminate|].
  split; [|reflexivity]. simpl. intros [H | []]. discriminate.
Qed.

(** ** Deactivation without a filter *)

(** C9: [deactivate] with neither a name set nor a cutoff returns the empty
    list, and the database (manager rows, their logs, the task tables) and
    the logger are untouched; an empty name set counts as none. *)
Theorem deactivate_without_filter
    {R} (reset_assigned : list string -> R -> list Z * R)
    (now : datetime) (reason : string) (d : Database R) :
  deactivate reset_assigned now None None reason d = (Ok [], d, [])
  /\ deactivate reset_assigned now (Some []) None reason d = (Ok [], d, []).
Proof. split; reflexivity. Qed.

(** ** The limit of [get] *)

(** C10: a [get] for more names than the configured manager limit raises
    [RequestTooLargeError]; the database is left as it was, and the
    outcome does not depend on the stored rows nor on the lookup helper,
    which is never called. *)
Theorem get_over_limit
    {R ManagerDict} get_general (self : ManagerSocket.t) (name : list string)
    (include exclude : option (list string)) (missing_ok : bool) (d : Database R) :
  Z.of_nat (List.length name) > ManagerSocket._manager_limit self ->
  get (ManagerDict := ManagerDict) get_general self name include exclude missing_ok d
  = (Raise (RequestTooLargeError (List.length name) (ManagerSocket._manager_limit self)),
     d, [])
  /\ forall get_general' (d' : Database R),
       fst (fst (get (ManagerDict := ManagerDict) get_general' self name include exclude
                     missing_ok d'))
       = fst (fst (get get_general self name include exclude missing_ok d)).
Proof.
  intros H. apply Z.gt_lt, Z.gtb_lt in H.
  unfold get. rewrite H. split; [reflexivity|].
  intros. reflexivity.
Qed.

Lemma get_over_limit_witness :
  Z.of_nat (List.length ["a"; "b"; "c"]) > ManagerSocket._manager_limit (ManagerSocket.mk 2 10)
  /\ get get_general_none (ManagerSocket.mk 2 10) ["a"; "b"; "c"] None None false db_m1
     = (Raise (RuntimeError "Request for 3 managers is over the limit of 2"), db_m1, []).
Proof.
  split; [reflexivity|].
  apply (get_over_limit get_general_none (ManagerSocket.mk 2 10) ["a"; "b"; "c"]
           None None false db_m1).
  reflexivity.
Defined.

(** ** Heartbeats *)

(** The four ways [update_resource_stats] ends. *)
Lemma update_resource_stats_cases {R} now n w k a c mem (d : Database R) :
  let out := update_resource_stats now n w k a c mem d in
  (select_by_name n d = [] /\ out = (Raise (UnknownManagerError n), d, []))
  \/ (exists m, select_by_name n d = [m]
                /\ ComputeManagerORM.status m <> active
                /\ out = (Raise (InactiveManagerError n), d, []))
  \/ (exists m, select_by_name n d = [m]
                /\ ComputeManagerORM.status m = active
                /\ out = (Ok tt, write_back n (heartbeat_row now w k a c mem m) d, []))
  \/ (exists m1 m2 ms, select_by_name n d = m1 :: m2 :: ms
                       /\ out = (Raise MultipleResultsFound, d, [])).
Proof.
  unfold update_resource_stats.
  destruct (select_by_name n d) as [|m [|m2 ms]]; cbv zeta.
  - left. now split.
  - right. destruct (ComputeManagerORM.status m) eqn:Es; simpl.
    + right. left. exists m. now repeat split.
    + left. exists m. repeat split. rewrite Es. discriminate.
  - right. right. right. now exists m, m2, ms.
Qed.

Lemma select_by_name_unique {R} (d : Database R) (r : ComputeManagerORM.t) :
  unique_names d -> In r (manager_table d) ->
  select_by_name (ComputeManagerORM.name r) d = [r].
Proof.
  unfold unique_names, select_by_name.
  induction (manager_table d) as [|x t IH]; simpl; intros Hu Hin; [contradiction|].
  inversion Hu as [|? ? Hx Ht]; subst.
  destruct Hin as [-> | Hin].
  - rewrite String.eqb_refl. f_equal.
    destruct (filter _ t) as [|y ys] eqn:E; [reflexivity|].
    exfalso. apply Hx.
    assert (Hy : In y (filter (fun r0 => String.eqb (ComputeManagerORM.name r0)
                                                     (ComputeManagerORM.name r)) t))
      by (rewrite E; now left).
    apply filter_In in Hy. destruct Hy as [Hy Hn]. apply String.eqb_eq in Hn.
    rewrite <- Hn. now apply in_map.
  - destruct (String.eqb_spec (ComputeManagerORM.name x) (ComputeManagerORM.name r)) as [E|];
      [|now apply IH].
    exfalso. apply Hx. rewrite E. now apply in_map.
Qed.

(** A [where]-guarded update that keeps the names selects, under a name,
    the updated images of the rows it selected before. *)
Lemma filter_name_map (n : string) (f : ComputeManagerORM.t -> ComputeManagerORM.t)
    (t : list ComputeManagerORM.t) :
  (forall r, ComputeManagerORM.name (f r) = ComputeManagerORM.name r) ->
  filter (fun r => String.eqb (ComputeManagerORM.name r) n) (map f t)
  = map f (filter (fun r => String.eqb (ComputeManagerORM.name r) n) t).
Proof.
  intros Hf. induction t as [|x t IH]; simpl; [reflexivity|].
  rewrite Hf, IH. now destruct (String.eqb (ComputeManagerORM.name x) n).
Qed.

(** After a successful heartbeat the name selects the rewritten row. *)
Lemma select_by_name_write_back {R} (n : string) (m m' : ComputeManagerORM.t)
    (d : Database R) :
  select_by_name n d = [m] -> ComputeManagerORM.name m' = n ->
  select_by_name n (write_back n m' d) = [m'].
Proof.
  unfold select_by_name, write_back. simpl. intros Hs Hn.
  revert Hs. generalize (manager_table d) as t. intros t. revert m.
  assert (G : forall t, filter (fun r => String.eqb (ComputeManagerORM.name r) n)
                 (map (fun r => if String.eqb (ComputeManagerORM.name r) n then m' else r) t)
              = map (fun _ => m') (filter (fun r => String.eqb (ComputeManagerORM.name r) n) t)).
  { clear t. induction t as [|x t IH]; simpl; [reflexivity|].
    destruct (String.eqb (ComputeManagerORM.name x) n) eqn:E; simpl.
    - rewrite Hn, String.eqb_refl, IH. reflexivity.
    - rewrite E. apply IH. }
  intros m Hs. rewrite G, Hs. reflexivity.
Qed.

(** ** Deactivation *)

(** The [where] clause of the update statement, clause by clause. *)
Lemma deactivate_where_filter name mb (r : ComputeManagerORM.t) :
  deactivate_where name mb r = deactivate_filter name mb r.
Proof.
  unfold deactivate_where, deactivate_filter, query_and, and_, status_is,
    name_in_, modified_on_lt.
  destruct (truthy_names name), mb; simpl;
    rewrite ?andb_true_r, ?andb_assoc; reflexivity.
Qed.

(** What [deactivate_filter] decides. *)
Lemma deactivate_filter_true_iff name mb (r : ComputeManagerORM.t) :
  deactivate_filter name mb r = true <->
  ComputeManagerORM.status r = active
  /\ (truthy_names name = true ->
      exists l, name = Some l /\ In (ComputeManagerORM.name r) l)
  /\ (forall t, mb = Some t -> ComputeManagerORM.modified_on r < t).
Proof.
  unfold deactivate_filter. rewrite !andb_true_iff. split.
  - intros [[Hs Hn] Hm]. split; [now destruct (ComputeManagerORM.status r)|]. split.
    + intros Ht. rewrite Ht in Hn. destruct name as [l|]; [|discriminate].
      exists l. split; [reflexivity|]. now apply mem_In.
    + intros t ->. now apply Z.ltb_lt.
  - intros (Hs & Hn & Hm). split; [split|].
    + now rewrite Hs.
    + destruct (truthy_names name); [|reflexivity].
      destruct (Hn eq_refl) as (l & -> & Hin). now apply mem_In.
    + destruct mb as [t|]; [|reflexivity]. apply Z.ltb_lt. now apply Hm.
Qed.

(** The loop over the deactivated names calls [reset_assigned] once for
    each name of the list, in order, and logs one line per call. *)
Lemma reset_orphans_fold {R} (reset_assigned : list string -> R -> list Z * R)
    (reason : string) (names : list string) (rec : R) :
  fst (reset_orphans reset_assigned reason names rec)
  = fold_left (fun acc n => snd (reset_assigned [n] acc)) names rec
  /\ List.length (snd (reset_orphans reset_assigned reason names rec))
     = List.length names.
Proof.
  revert rec. induction names as [|n names IH]; intros rec; simpl; [now split|].
  destruct (reset_assigned [n] rec) as [ids rec1] eqn:E1.
  specialize (IH rec1).
  destruct (reset_orphans reset_assigned reason names rec1) as [rec2 lines].
  simpl in *. destruct IH as [IH1 IH2]. now rewrite IH1, IH2.
Qed.

(** The two ways [deactivate] ends. *)
Lemma deactivate_cases {R} (reset_assigned : list string -> R -> list Z * R)
    now name mb reason (d : Database R) :
  let out := deactivate reset_assigned now name mb reason d in
  (truthy_names name = false /\ mb = None /\ out = (Ok [], d, []))
  \/ ((truthy_names name = true \/ mb <> None)
      /\ let dead := map ComputeManagerORM.name
                        (filter (deactivate_filter name mb) (manager_table d)) in
         out = (Ok dead,
                mkDatabase
                  (map (fun r => if deactivate_filter name mb r
                                 then deactivate_values now r else r)
                       (manager_table d))
                  (manager_id_seq d)
                  (fst (reset_orphans reset_assigned reason dead (records d))),
                snd (reset_orphans reset_assigned reason dead (records d)))).
Proof.
  unfold deactivate.
  destruct (negb (truthy_names name) && negb (truthy_datetime mb))%bool eqn:E.
  - left. apply andb_true_iff in E. destruct E as [E1 E2].
    apply negb_true_iff in E1, E2. destruct mb; [discriminate|]. now repeat split.
  - right. split.
    + apply andb_false_iff in E. destruct E as [E | E]; apply negb_false_iff in E.
      * now left.
      * right. destruct mb; [discriminate | discriminate].
    + cbv zeta.
      rewrite (filter_ext _ _ (deactivate_where_filter name mb)).
      rewrite (map_ext _ (fun r => if deactivate_filter name mb r
                                   then deactivate_values now r else r))
        by (intros r; now rewrite deactivate_where_filter).
      now destruct (reset_orphans reset_assigned reason _ (records d)).
Qed.

(** Selecting rows of a table keeps their names pairwise distinct. *)
Lemma names_of_selection_distinct (selected : ComputeManagerORM.t -> bool)
    (table : list ComputeManagerORM.t) :
  NoDup (map ComputeManagerORM.name table) ->
  NoDup (map ComputeManagerORM.name (filter selected table)).
Proof.
  intros Hu. induction table as [|r table IH]; simpl in *; [constructor|].
  apply NoDup_cons_iff in Hu. destruct Hu as [Hr Hu].
  destruct (selected r); simpl; [|now apply IH].
  constructor; [|now apply IH].
  intros Hin. apply Hr. apply in_map_iff in Hin.
  destruct Hin as (r' & En & Hr'). apply filter_In in Hr'.
  rewrite <- En. apply in_map. tauto.
Qed.

(** C1 (amended): with at least one filter supplied, [deactivate] turns
    inactive, with [modified_on] set to now, exactly the managers that are
    active and satisfy every supplied filter (name in the name set when
    one is given, and modified before the cutoff when one is given) and
    leaves every other row as it was; it returns exactly their names, and
    in the same call it invokes the release operation of the task
    subsystem once for each returned name, in order, and for no other
    name.  The returned names are pairwise distinct when the names of the
    table are. *)
Theorem deactivate_transitions_and_releases
    {R} (reset_assigned : list string -> R -> list Z * R)
    now name mb reason (d : Database R) :
  truthy_names name = true \/ mb <> None ->
  exists dead table rec lines,
    deactivate reset_assigned now name mb reason d
    = (Ok dead, mkDatabase table (manager_id_seq d) rec, lines)
    /\ (forall r, deactivate_filter name mb r = true <->
           ComputeManagerORM.status r = active
           /\ (truthy_names name = true ->
               exists l, name = Some l /\ In (ComputeManagerORM.name r) l)
           /\ (forall t, mb = Some t -> ComputeManagerORM.modified_on r < t))
    /\ dead = map ComputeManagerORM.name
                 (filter (deactivate_filter name mb) (manager_table d))
    /\ table = map (fun r => if deactivate_filter name mb r
                             then ComputeManagerORM.set_modified_on now
                                    (ComputeManagerORM.set_status inactive r)
                             else r)
                   (manager_table d)
    /\ rec = fold_left (fun acc n => snd (reset_assigned [n] acc)) dead (records d)
    /\ List.length lines = List.length dead
    /\ (unique_names d -> NoDup dead).
Proof.
  intros Hsup.
  destruct (deactivate_cases reset_assigned now name mb reason d)
    as [(Hn & Hm & _) | [_ E]].
  { exfalso. destruct Hsup as [H | H]; congruence. }
  cbv zeta in E.
  eexists _, _, _, _. split; [exact E|].
  split; [apply deactivate_filter_true_iff|].
  split; [reflexivity|]. split; [reflexivity|].
  split; [apply reset_orphans_fold|]. split; [apply reset_orphans_fold|].
  intros Hu. apply names_of_selection_distinct. exact Hu.
Qed.

Lemma unique_names_db_three : unique_names db_three.
Proof.
  unfold unique_names. simpl.
  repeat constructor; simpl; intuition discriminate.
Defined.

Lemma deactivate_transitions_and_releases_witness :
  (truthy_names (Some ["m1"; "m3"]) = true \/ @None datetime <> None)
  /\ unique_names db_three
  /\ exists dead table rec lines,
       deactivate call_recorder 100 (Some ["m1"; "m3"]) None "gone" db_three
       = (Ok dead, mkDatabase table 4 rec, lines)
       /\ dead = ["m1"]
       /\ map ComputeManagerORM.status table = [inactive; active; inactive]
       /\ map ComputeManagerORM.modified_on table = [100; 5; 5]
       /\ rec = [["m1"]]
       /\ NoDup dead.
Proof.
  split; [now left|]. split; [exact unique_names_db_three|].
  destruct (deactivate_transitions_and_releases call_recorder 100
              (Some ["m1"; "m3"]) None "gone" db_three (or_introl eq_refl))
    as (dead & table & rec & lines & E & _ & Hdead & Htable & Hrec & _ & Hnd).
  exists dead, table, rec, lines.
  split; [exact E|]. split; [exact Hdead|].
  split; [rewrite Htable; reflexivity|]. split; [rewrite Htable; reflexivity|].
  split; [rewrite Hrec, Hdead; reflexivity|].
  exact (Hnd unique_names_db_three).
Defined.

(** C1 as first stated (name in the set OR older than the cutoff) fails
    when both filters are given: the disjunctive reading selects "m1"
    (named) and "m2" (stale), the code deactivates neither, since no active
    manager is both named and stale. *)
Lemma deactivate_both_filters_is_conjunction :
  map ComputeManagerORM.name
      (filter (deactivate_filter_spec (Some ["m1"; "m3"]) (Some 10))
              (manager_table db_three))
  = ["m1"; "m2"]
  /\ deactivate call_recorder 100 (Some ["m1"; "m3"]) (Some 10) "sweep" db_three
     = (Ok [], db_three, []).
Proof. split; reflexivity. Qed.

(** Every name [deactivate] returns is carried by an inactive row
    afterwards, and by that row alone when names are unique. *)
Lemma deactivate_then_inactive {R} (reset_assigned : list string -> R -> list Z * R)
    now name mb reason (d0 d : Database R) dead lg n :
  deactivate reset_assigned now name mb reason d0 = (Ok dead, d, lg) ->
  In n dead ->
  (exists r, In r (select_by_name n d) /\ ComputeManagerORM.status r = inactive)
  /\ (unique_names d0 ->
      exists r, select_by_name n d = [r] /\ ComputeManagerORM.status r = inactive).
Proof.
  intros E Hin.
  destruct (deactivate_cases reset_assigned now name mb reason d0)
    as [(_ & _ & E') | [_ E']]; cbv zeta in E'; rewrite E' in E;
    injection E as <- <- <-; [contradiction|].
  apply in_map_iff in Hin. destruct Hin as (r0 & <- & Hr0).
  apply filter_In in Hr0. destruct Hr0 as [Hin Hf].
  assert (Hsel : select_by_name (ComputeManagerORM.name r0)
                   (mkDatabase
                      (map (fun r => if deactivate_filter name mb r
                                     then deactivate_values now r else r)
                           (manager_table d0))
                      (manager_id_seq d0)
                      (fst (reset_orphans reset_assigned reason
                              (map ComputeManagerORM.name
                                 (filter (deactivate_filter name mb) (manager_table d0)))
                              (records d0))))
                 = map (fun r => if deactivate_filter name mb r
                                 then deactivate_values now r else r)
                       (select_by_name (ComputeManagerORM.name r0) d0)).
  { unfold select_by_name. simpl.
    apply filter_name_map. intros r. now destruct (deactivate_filter name mb r). }
  rewrite Hsel. split.
  - exists (deactivate_values now r0). split; [|reflexivity].
    apply in_map_iff. exists r0.
    split; [now rewrite Hf | now apply select_by_name_In].
  - intros Hu. exists (deactivate_values now r0). split; [|reflexivity].
    rewrite (select_by_name_unique d0 r0 Hu Hin). simpl. now rewrite Hf.
Qed.

(** C5: [update_resource_stats] raises [UnknownManagerError] when no
    manager carries the name and [InactiveManagerError] when the manager
    found is not active; in both cases the database (rows and logs) is as
    before and nothing is logged.  In particular a heartbeat for a name
    that [deactivate] has just returned never succeeds: it raises and
    changes nothing, and what it raises is [InactiveManagerError] (names
    being unique in the table). *)
Theorem update_resource_stats_errors {R} now n w k a c mem (d : Database R) :
  (~ In n (map ComputeManagerORM.name (manager_table d)) ->
   update_resource_stats now n w k a c mem d = (Raise (UnknownManagerError n), d, []))
  /\ (forall r, select_by_name n d = [r] -> ComputeManagerORM.status r <> active ->
      update_resource_stats now n w k a c mem d = (Raise (InactiveManagerError n), d, []))
  /\ (forall (reset_assigned : list string -> R -> list Z * R)
             now0 name mb reason (d0 : Database R) dead lg,
      deactivate reset_assigned now0 name mb reason d0 = (Ok dead, d, lg) ->
      In n dead ->
      (exists e, update_resource_stats now n w k a c mem d = (Raise e, d, []))
      /\ (unique_names d0 ->
          update_resource_stats now n w k a c mem d
          = (Raise (InactiveManagerError n), d, []))).
Proof.
  assert (Hinactive : forall r, select_by_name n d = [r] ->
            ComputeManagerORM.status r <> active ->
            update_resource_stats now n w k a c mem d
            = (Raise (InactiveManagerError n), d, [])).
  { intros r Hs Hst.
    destruct (update_resource_stats_cases now n w k a c mem d)
      as [(Hs' & _) | [(m & _ & _ & E) | [(m & Hs' & Hst' & _) | (m1 & m2 & ms & Hs' & _)]]];
      congruence. }
  split; [|split].
  - intros Hn. apply select_by_name_nil_iff in Hn.
    destruct (update_resource_stats_cases now n w k a c mem d)
      as [(_ & E) | [(m & Hs & _) | [(m & Hs & _) | (m1 & m2 & ms & Hs & _)]]];
      congruence.
  - exact Hinactive.
  - intros reset_assigned now0 name mb reason d0 dead lg E Hin.
    destruct (deactivate_then_inactive reset_assigned now0 name mb reason d0 d dead lg n
                E Hin) as [(r & Hr & Hst) Huniq].
    split.
    + destruct (update_resource_stats_cases now n w k a c mem d)
        as [(Hs & E') | [(m & _ & _ & E') | [(m & Hs & Hst' & _) | (m1 & m2 & ms & _ & E')]]];
        eauto.
      exfalso. rewrite Hs in Hr. destruct Hr as [-> | []]. congruence.
    + intros Hu. destruct (Huniq Hu) as (r' & Hs & Hst').
      apply (Hinactive r' Hs). rewrite Hst'. discriminate.
Qed.

Lemma update_resource_stats_errors_witness :
  ~ In "m9" (map ComputeManagerORM.name (manager_table db_three))
  /\ update_resource_stats 100 "m9" five two 3 4 five db_three
     = (Raise (UnknownManagerError "m9"), db_three, [])
  /\ select_by_name "m3" db_three = [row 3 "m3" inactive 5]
  /\ update_resource_stats 100 "m3" five two 3 4 five db_three
     = (Raise (InactiveManagerError "m3"), db_three, [])
  /\ let d := snd (fst (deactivate call_recorder 60 (Some ["m1"]) None "gone" db_three)) in
     deactivate call_recorder 60 (Some ["m1"]) None "gone" db_three
     = (Ok ["m1"], d,
        [(INFO, "Deactivated manager m1. Reason: gone. Recycling 0 incomplete tasks.")])
     /\ update_resource_stats 100 "m1" five two 3 4 five d
        = (Raise (InactiveManagerError "m1"), d, []).
Proof.
  assert (H9 : ~ In "m9" (map ComputeManagerORM.name (manager_table db_three))).
  { simpl. intuition discriminate. }
  split; [exact H9|]. split.
  { apply (update_resource_stats_errors 100 "m9" five two 3 4 five db_three). exact H9. }
  split; [reflexivity|]. split.
  { apply (update_resource_stats_errors 100 "m3" five two 3 4 five db_three)
      with (r := row 3 "m3" inactive 5); [reflexivity | discriminate]. }
  intros d. split; [reflexivity|].
  apply (proj2 (proj2 (update_resource_stats_errors 100 "m1" five two 3 4 five d))
           call_recorder 60 (Some ["m1"]) None "gone" db_three ["m1"]
           [(INFO, "Deactivated manager m1. Reason: gone. Recycling 0 incomplete tasks.")]).
  - reflexivity.
  - now left.
  - exact unique_names_db_three.
Defined.

(** ** Heartbeats: what is written *)

(** C2 (amended): a successful [update_resource_stats] appends exactly one
    [ManagerLog] entry to the log of the manager and touches no other row;
    the entry carries the counters as they stand once the update is
    written (the bookkeeping counters, which the call does not change, and
    the [total_worker_walltime], [active_tasks], [active_cores] and
    [active_memory] just supplied) together with the new [modified_on],
    which is the clock reading of the call. *)
Theorem update_resource_stats_appends_snapshot
    {R} now n w k a c mem (d d' : Database R) lg :
  update_resource_stats now n w k a c mem d = (Ok tt, d', lg) ->
  exists m m' entry,
    select_by_name n d = [m]
    /\ select_by_name n d' = [m']
    /\ manager_table d'
       = map (fun r => if String.eqb (ComputeManagerORM.name r) n then m' else r)
             (manager_table d)
    /\ ComputeManagerORM.log m' = ComputeManagerORM.log m ++ [entry]
    /\ ComputeManagerLogORM.claimed entry = ComputeManagerORM.claimed m
    /\ ComputeManagerLogORM.successes entry = ComputeManagerORM.successes m
    /\ ComputeManagerLogORM.failures entry = ComputeManagerORM.failures m
    /\ ComputeManagerLogORM.rejected entry = ComputeManagerORM.rejected m
    /\ ComputeManagerLogORM.total_worker_walltime entry = w
    /\ ComputeManagerLogORM.active_tasks entry = a
    /\ ComputeManagerLogORM.active_cores entry = c
    /\ ComputeManagerLogORM.active_memory entry = mem
    /\ ComputeManagerLogORM.timestamp entry = now
    /\ ComputeManagerORM.modified_on m' = now.
Proof.
  intros H.
  destruct (update_resource_stats_cases now n w k a c mem d)
    as [(_ & E) | [(m & _ & _ & E) | [(m & Hs & _ & E) | (m1 & m2 & ms & _ & E)]]];
    cbv zeta in E; rewrite E in H; try discriminate.
  injection H as <- <-.
  assert (Hn : ComputeManagerORM.name m = n).
  { assert (Hin : In m (select_by_name n d)) by (rewrite Hs; now left).
    apply select_by_name_In in Hin. tauto. }
  exists m, (heartbeat_row now w k a c mem m).
  eexists. split; [exact Hs|]. split.
  { apply select_by_name_write_back with (m := m); [exact Hs | exact Hn]. }
  split; [reflexivity|].
  unfold heartbeat_row, save_snapshot. simpl.
  split; [reflexivity|]. simpl. repeat split.
Qed.

Lemma update_resource_stats_appends_snapshot_witness :
  update_resource_stats 100 "m1" five two 3 4 five db_m1
  = (Ok tt, snd (fst (update_resource_stats 100 "m1" five two 3 4 five db_m1)), [])
  /\ exists m m' entry,
       select_by_name "m1" db_m1 = [m]
       /\ ComputeManagerORM.log m' = ComputeManagerORM.log m ++ [entry]
       /\ ComputeManagerLogORM.total_worker_walltime entry = five
       /\ ComputeManagerLogORM.timestamp entry = 100.
Proof.
  split; [reflexivity|].
  destruct (update_resource_stats_appends_snapshot 100 "m1" five two 3 4 five db_m1
              _ _ eq_refl)
    as (m & m' & entry & Hs & _ & _ & Hl & _ & _ & _ & _ & Hw & _ & _ & _ & Ht & _).
  exists m, m', entry. repeat split; assumption.
Defined.

(** C2 as first stated fails: the entry appended by the heartbeat carries
    the totals just written, not the ones the row held before the update. *)
Lemma snapshot_is_taken_after_the_update :
  let m := row 1 "m1" active 50 in
  exists m' entry,
    update_resource_stats 100 "m1" five two 3 4 five db_m1
    = (Ok tt, mkDatabase [m'] 2 [], [])
    /\ ComputeManagerORM.log m' = ComputeManagerORM.log m ++ [entry]
    /\ ComputeManagerORM.total_worker_walltime m = zero
    /\ ComputeManagerLogORM.total_worker_walltime entry = five
    /\ ComputeManagerLogORM.total_worker_walltime entry
       <> ComputeManagerORM.total_worker_walltime m
    /\ ComputeManagerORM.active_tasks m = 0
    /\ ComputeManagerLogORM.active_tasks entry = 3.
Proof.
  intros m.
  exists (heartbeat_row 100 five two 3 4 five m),
    (ComputeManagerLogORM.mk 0 0 0 0 five (PyTuple [PyFloat two]) 3 4 five 100).
  split; [reflexivity|]. split; [reflexivity|].
  split; [reflexivity|]. split; [reflexivity|].
  split; [discriminate|]. split; reflexivity.
Qed.

(** C3, on the heartbeat of "m1" with task walltime [two]: the other
    counters and [modified_on] are stored as supplied, but
    [total_task_walltime] is stored as the one-element tuple [(two,)], not
    as the float, and the log entry carries the same tuple. *)
Lemma update_resource_stats_wraps_task_walltime :
  exists m' entry,
    update_resource_stats 100 "m1" five two 3 4 five db_m1
    = (Ok tt, mkDatabase [m'] 2 [], [])
    /\ ComputeManagerORM.log m' = [entry]
    /\ ComputeManagerORM.total_worker_walltime m' = five
    /\ ComputeManagerORM.active_tasks m' = 3
    /\ ComputeManagerORM.active_cores m' = 4
    /\ ComputeManagerORM.active_memory m' = five
    /\ ComputeManagerORM.modified_on m' = 100
    /\ ComputeManagerORM.total_task_walltime m' = PyTuple [PyFloat two]
    /\ ComputeManagerORM.total_task_walltime m' <> PyFloat two
    /\ ComputeManagerLogORM.total_task_walltime entry = PyTuple [PyFloat two].
Proof.
  exists (heartbeat_row 100 five two 3 4 five (row 1 "m1" active 50)),
    (ComputeManagerLogORM.mk 0 0 0 0 five (PyTuple [PyFloat two]) 3 4 five 100).
  split; [reflexivity|]. split; [reflexivity|].
  split; [reflexivity|]. split; [reflexivity|].
  split; [reflexivity|]. split; [reflexivity|].
  split; [reflexivity|]. split; [reflexivity|].
  split; [discriminate | reflexivity].
Qed.

(** ** Status is monotonic *)

Lemma status_of_inactive_activate {R} cd nd mv qv u programs tags (d : Database R) n :
  status_of n d = Some inactive ->
  status_of n (snd (fst (activate cd nd mv qv u programs tags d))) = Some inactive.
Proof.
  intros H.
  destruct (activate_cases cd nd mv qv u programs tags d)
    as [[_ E] | [(_ & _ & E) | [(_ & _ & _ & E) | (_ & _ & _ & row & E & _)]]];
    cbv zeta in E; rewrite E; simpl; try assumption.
  revert H. unfold status_of, select_by_name. simpl. rewrite filter_app.
  now destruct (filter _ (manager_table d)).
Qed.

Lemma filter_name_write_back (n n0 : string) (m' : ComputeManagerORM.t)
    (t : list ComputeManagerORM.t) :
  n <> n0 -> ComputeManagerORM.name m' = n0 ->
  filter (fun r => String.eqb (ComputeManagerORM.name r) n)
         (map (fun r => if String.eqb (ComputeManagerORM.name r) n0 then m' else r) t)
  = filter (fun r => String.eqb (ComputeManagerORM.name r) n) t.
Proof.
  intros Hne Hm. induction t as [|x t IH]; simpl; [reflexivity|].
  rewrite IH.
  destruct (String.eqb_spec (ComputeManagerORM.name x) n0) as [E|]; [|reflexivity].
  rewrite Hm, E.
  destruct (String.eqb_spec n0 n) as [E'|]; [now elim Hne | reflexivity].
Qed.

Lemma status_of_inactive_update {R} now n0 w k a c mem (d : Database R) n :
  status_of n d = Some inactive ->
  status_of n (snd (fst (update_resource_stats now n0 w k a c mem d))) = Some inactive.
Proof.
  intros H.
  destruct (update_resource_stats_cases now n0 w k a c mem d)
    as [(_ & E) | [(m & _ & _ & E) | [(m & Hs & Hst & E) | (m1 & m2 & ms & _ & E)]]];
    cbv zeta in E; rewrite E; simpl; try assumption.
  destruct (String.eqb_spec n n0) as [->|Hne].
  - unfold status_of in H. rewrite Hs in H. congruence.
  - assert (Hn : ComputeManagerORM.name m = n0).
    { assert (Hin : In m (select_by_name n0 d)) by (rewrite Hs; now left).
      apply select_by_name_In in Hin. tauto. }
    revert H. unfold status_of, select_by_name, write_back. simpl.
    now rewrite filter_name_write_back.
Qed.

Lemma status_of_inactive_deactivate {R} (reset_assigned : list string -> R -> list Z * R)
    now name mb reason (d : Database R) n :
  status_of n d = Some inactive ->
  status_of n (snd (fst (deactivate reset_assigned now name mb reason d))) = Some inactive.
Proof.
  intros H.
  destruct (deactivate_cases reset_assigned now name mb reason d)
    as [(_ & _ & E) | [_ E]]; cbv zeta in E; rewrite E; simpl; [assumption|].
  clear E. revert H. unfold status_of, select_by_name. simpl.
  rewrite filter_name_map by (intros r; now destruct (deactivate_filter name mb r)).
  destruct (filter _ (manager_table d)) as [|r rs]; simpl; [discriminate|].
  intros Hr. injection Hr as Hr.
  unfold deactivate_filter. rewrite Hr. simpl. now rewrite Hr.
Qed.

Lemma step_keeps_inactive {R} (reset_assigned : list string -> R -> list Z * R)
    cd (d : Database R) (c : Call) n :
  status_of n d = Some inactive ->
  status_of n (step reset_assigned cd d c) = Some inactive.
Proof.
  destruct c; simpl.
  - apply status_of_inactive_activate.
  - apply status_of_inactive_update.
  - apply status_of_inactive_deactivate.
Qed.

Lemma run_keeps_inactive {R} (reset_assigned : list string -> R -> list Z * R)
    cd (calls : list Call) (d : Database R) n :
  status_of n d = Some inactive ->
  status_of n (run reset_assigned cd d calls) = Some inactive.
Proof.
  revert d. induction calls as [|c calls IH]; intros d H; simpl; [assumption|].
  apply IH. now apply step_keeps_inactive.
Qed.

Lemma status_trace_head {R} (reset_assigned : list string -> R -> list Z * R)
    cd n (d : Database R) (calls : list Call) :
  exists rest, status_trace reset_assigned cd n d calls = status_of n d :: rest.
Proof. destruct calls; simpl; eauto. Qed.

Lemma no_reactivation {R} (reset_assigned : list string -> R -> list Z * R)
    cd n (calls : list Call) (d : Database R) :
  count_reactivations (status_trace reset_assigned cd n d calls) = 0%nat.
Proof.
  revert d. induction calls as [|c calls IH]; intros d.
  - simpl. now destruct (status_of n d) as [[]|].
  - cbn [status_trace]. specialize (IH (step reset_assigned cd d c)).
    pose proof (step_keeps_inactive reset_assigned cd d c n) as Hk.
    destruct (status_trace_head reset_assigned cd n (step reset_assigned cd d c) calls)
      as [rest Er].
    rewrite Er in *. clear Er.
    destruct (status_of n d) as [[]|];
      destruct (status_of n (step reset_assigned cd d c)) as [[]|];
      try (specialize (Hk eq_refl); discriminate);
      cbn [count_reactivations] in *; exact IH.
Qed.

Lemma no_deactivation_once_inactive {R} (reset_assigned : list string -> R -> list Z * R)
    cd n (calls : list Call) (d : Database R) :
  status_of n d = Some inactive ->
  count_deactivations (status_trace reset_assigned cd n d calls) = 0%nat.
Proof.
  revert d. induction calls as [|c calls IH]; intros d H.
  - simpl. now rewrite H.
  - cbn [status_trace count_deactivations]. rewrite H.
    apply IH. now apply step_keeps_inactive.
Qed.

Lemma at_most_one_deactivation {R} (reset_assigned : list string -> R -> list Z * R)
    cd n (calls : list Call) (d : Database R) :
  (count_deactivations (status_trace reset_assigned cd n d calls) <= 1)%nat.
Proof.
  revert d. induction calls as [|c calls IH]; intros d.
  - simpl. destruct (status_of n d) as [[]|]; lia.
  - cbn [status_trace].
    pose proof (no_deactivation_once_inactive reset_assigned cd n calls
                  (step reset_assigned cd d c)) as H0.
    specialize (IH (step reset_assigned cd d c)).
    destruct (status_trace_head reset_assigned cd n (step reset_assigned cd d c) calls)
      as [rest Er].
    rewrite Er in *. clear Er.
    destruct (status_of n d) as [[]|];
      destruct (status_of n (step reset_assigned cd d c)) as [[]|];
      try specialize (H0 eq_refl);
      cbn [count_deactivations] in *; try exact IH.
    rewrite H0. lia.
Qed.

(** C4: the status of a manager is monotonic.  No call of [activate],
    [update_resource_stats] or [deactivate], whether it returns or raises,
    takes a name from inactive to anything else; so along any sequence of
    calls a name that is inactive stays inactive, it never leaves the
    inactive status, and it passes from active to inactive at most once. *)
Theorem manager_status_monotonic
    {R} (reset_assigned : list string -> R -> list Z * R) cd
    (d : Database R) (calls : list Call) (n : string) :
  (forall c, status_of n d = Some inactive ->
             status_of n (step reset_assigned cd d c) = Some inactive)
  /\ (status_of n d = Some inactive ->
      status_of n (run reset_assigned cd d calls) = Some inactive)
  /\ count_reactivations (status_trace reset_assigned cd n d calls) = 0%nat
  /\ (count_deactivations (status_trace reset_assigned cd n d calls) <= 1)%nat.
Proof.
  split; [|split; [|split]].
  - intros c. apply step_keeps_inactive.
  - apply run_keeps_inactive.
  - apply no_reactivation.
  - apply at_most_one_deactivation.
Qed.

Lemma manager_status_monotonic_witness :
  status_trace call_recorder defaults0 "m1" db_empty life_of_m1
  = [None; Some active; Some active; Some inactive; Some inactive; Some inactive;
     Some inactive]
  /\ status_of "m3" db_three = Some inactive
  /\ status_of "m3" (run call_recorder defaults0 db_three
                         (CallActivate (ManagerName.mk "m3" "c" "h") "v" "v" None
                            [("psi4", None)] ["*"] :: life_of_m1))
     = Some inactive
  /\ (count_deactivations (status_trace call_recorder defaults0 "m1" db_empty life_of_m1)
      <= 1)%nat.
Proof.
  split; [reflexivity|]. split; [reflexivity|]. split.
  - apply (manager_status_monotonic call_recorder defaults0 db_three
             (CallActivate (ManagerName.mk "m3" "c" "h") "v" "v" None
                [("psi4", None)] ["*"] :: life_of_m1) "m3").
    reflexivity.
  - apply (manager_status_monotonic call_recorder defaults0 db_empty life_of_m1 "m1").
Defined.

(** * Further properties of the socket *)

(** ** Queries *)

Lemma and_app (l1 l2 : list (ComputeManagerORM.t -> bool)) (r : ComputeManagerORM.t) :
  and_ (l1 ++ l2) r = (and_ l1 r && and_ l2 r)%bool.
Proof. unfold and_. apply forallb_app. Qed.

Lemma and_append_if {A} (arg : option A) clause and_query (r : ComputeManagerORM.t) :
  and_ (append_if arg clause and_query) r
  = (and_ and_query r && opt_clause arg clause r)%bool.
Proof.
  destruct arg as [a|]; simpl.
  - rewrite and_app. simpl. now rewrite andb_true_r.
  - now rewrite andb_true_r.
Qed.

Lemma and_query_and_query mid name cluster hostname status mb ma r :
  and_ (query_and_query mid name cluster hostname status mb ma) r
  = (opt_clause mid id_in_ r && opt_clause name name_in_ r
     && opt_clause hostname hostname_in_ r && opt_clause cluster cluster_in_ r
     && opt_clause status status_in_ r && opt_clause mb modified_on_lt r
     && opt_clause ma modified_on_gt r)%bool.
Proof.
  unfold query_and_query. cbv zeta. rewrite !and_append_if. reflexivity.
Qed.

Lemma status_in_In (l : list ManagerStatusEnum) (r : ComputeManagerORM.t) :
  status_in_ l r = true <-> In (ComputeManagerORM.status r) l.
Proof.
  unfold status_in_. rewrite existsb_exists. split.
  - intros (x & Hx & E). destruct (ComputeManagerORM.status r), x; try discriminate; assumption.
  - intros H. exists (ComputeManagerORM.status r). split; [assumption|].
    now destruct (ComputeManagerORM.status r).
Qed.

Lemma id_in_In (ids : list Z) (r : ComputeManagerORM.t) :
  id_in_ ids r = true <-> exists i, ComputeManagerORM.id r = Some i /\ In i ids.
Proof.
  unfold id_in_. destruct (ComputeManagerORM.id r) as [i|].
  - rewrite existsb_exists. split.
    + intros (x & Hx & E). apply Z.eqb_eq in E. subst. eauto.
    + intros (j & [= <-] & Hj). exists i. split; [assumption | apply Z.eqb_refl].
  - split; [discriminate | intros (i & [=] & _)].
Qed.

Lemma opt_clause_true_iff {A} (arg : option A) clause (r : ComputeManagerORM.t) (P : A -> Prop) :
  (forall a, clause a r = true <-> P a) ->
  opt_clause arg clause r = true <-> (forall a, arg = Some a -> P a).
Proof.
  intros H. destruct arg as [a|]; simpl.
  - rewrite H. split; [now intros HP a' [= <-] | auto].
  - split; [discriminate | reflexivity].
Qed.

(** The clauses of [query] hold together exactly when every criterion that
    is given holds. *)
Lemma query_and_query_true_iff mid name cluster hostname status mb ma r :
  and_ (query_and_query mid name cluster hostname status mb ma) r = true
  <-> query_matches mid name cluster hostname status mb ma r.
Proof.
  rewrite and_query_and_query, !andb_true_iff. unfold query_matches.
  rewrite (opt_clause_true_iff mid id_in_ r
             (fun ids => exists i, ComputeManagerORM.id r = Some i /\ In i ids))
    by (intros; apply id_in_In).
  rewrite (opt_clause_true_iff name name_in_ r (fun l => In (ComputeManagerORM.name r) l))
    by (intros; apply mem_In).
  rewrite (opt_clause_true_iff hostname hostname_in_ r
             (fun l => In (ComputeManagerORM.hostname r) l))
    by (intros; apply mem_In).
  rewrite (opt_clause_true_iff cluster cluster_in_ r
             (fun l => In (ComputeManagerORM.cluster r) l))
    by (intros; apply mem_In).
  rewrite (opt_clause_true_iff status status_in_ r
             (fun l => In (ComputeManagerORM.status r) l))
    by (intros; apply status_in_In).
  rewrite (opt_clause_true_iff mb modified_on_lt r
             (fun t => ComputeManagerORM.modified_on r < t))
    by (intros; apply Z.ltb_lt).
  rewrite (opt_clause_true_iff ma modified_on_gt r
             (fun t => ComputeManagerORM.modified_on r > t))
    by (intros; unfold modified_on_gt; rewrite Z.gtb_lt; lia).
  tauto.
Qed.

Lemma In_limit_offset {A} (limit skip : Z) (rows : list A) (x : A) :
  In x (limit_offset limit skip rows) -> In x rows.
Proof.
  unfold limit_offset. intros H.
  rewrite <- (firstn_skipn (Z.to_nat skip) rows). apply in_or_app. right.
  rewrite <- (firstn_skipn (Z.to_nat limit) (skipn (Z.to_nat skip) rows)).
  apply in_or_app. now left.
Qed.

(** X1: every record [query] returns is the dictionary of a stored manager
    that satisfies every criterion given (ids, names, hostnames, clusters,
    statuses, modified before, modified after), and [n_returned] is the
    number of records returned. *)
Theorem query_returns_only_matches
    {R ManagerDict ProjOptions} calculate_limit get_query_proj_options
    (orm_dict : ProjOptions -> ComputeManagerORM.t -> ManagerDict)
    self mid name cluster hostname status mb ma include exclude limit skip
    (d : Database R) (md : ManagerDict) :
  In md (snd (query calculate_limit get_query_proj_options orm_dict self mid name
                cluster hostname status mb ma include exclude limit skip d)) ->
  (exists r, In r (manager_table d)
     /\ md = orm_dict (get_query_proj_options include exclude) r
     /\ query_matches mid name cluster hostname status mb ma r)
  /\ n_returned (fst (query calculate_limit get_query_proj_options orm_dict self mid
                        name cluster hostname status mb ma include exclude limit skip d))
     = Z.of_nat (List.length
                   (snd (query calculate_limit get_query_proj_options orm_dict self mid
                           name cluster hostname status mb ma include exclude limit
                           skip d))).
Proof.
  unfold query, get_count. cbv zeta. simpl. intros Hin. split; [|reflexivity].
  apply in_map_iff in Hin. destruct Hin as (r & <- & Hr).
  apply In_limit_offset, filter_In in Hr. destruct Hr as [Hr Hm].
  exists r. split; [assumption|]. split; [reflexivity|].
  now apply query_and_query_true_iff.
Qed.

Lemma query_returns_only_matches_witness :
  In "m2" (snd (query clamp_limit no_projection name_only (ManagerSocket.mk 10 10)
                  None None None None (Some [active]) (Some 10) None None None
                  None 0 db_three))
  /\ exists r, In r (manager_table db_three)
       /\ "m2" = name_only tt r
       /\ ComputeManagerORM.status r = active
       /\ ComputeManagerORM.modified_on r < 10.
Proof.
  assert (Hin : In "m2" (snd (query clamp_limit no_projection name_only
                               (ManagerSocket.mk 10 10) None None None None
                               (Some [active]) (Some 10) None None None None 0
                               db_three))) by (now left).
  split; [exact Hin|].
  destruct (query_returns_only_matches clamp_limit no_projection name_only
              (ManagerSocket.mk 10 10) None None None None (Some [active]) (Some 10)
              None None None None 0 db_three "m2" Hin)
    as [(r & Hr & Hmd & _ & _ & _ & _ & Hst & Hmb & _) _].
  exists r. split; [assumption|]. split; [assumption|]. split.
  - destruct (Hst [active] eq_refl) as [E | []]. now symmetry.
  - now apply Hmb.
Defined.

(** X2: with a non-negative offset and limit in force, [n_found] counts
    all the matches, whatever the page asked for, and [n_returned] is the
    size of the page: the matches left after the offset, cut at the limit
    in force. *)
Theorem query_page_size
    {R ManagerDict ProjOptions} calculate_limit get_query_proj_options
    (orm_dict : ProjOptions -> ComputeManagerORM.t -> ManagerDict)
    self mid name cluster hostname status mb ma include exclude limit skip
    (d : Database R) :
  0 <= skip ->
  0 <= calculate_limit (ManagerSocket._manager_limit self) limit ->
  let meta := fst (query calculate_limit get_query_proj_options orm_dict self mid name
                     cluster hostname status mb ma include exclude limit skip d) in
  n_returned meta
  = Z.min (calculate_limit (ManagerSocket._manager_limit self) limit)
          (Z.max 0 (n_found meta - skip))
  /\ n_returned meta <= n_found meta
  /\ forall limit' skip',
       n_found (fst (query calculate_limit get_query_proj_options orm_dict self mid
                       name cluster hostname status mb ma include exclude limit'
                       skip' d))
       = n_found meta.
Proof.
  intros Hs Hl. unfold query, get_count. cbv zeta. simpl.
  rewrite length_map. unfold limit_offset. rewrite length_firstn, length_skipn.
  split; [lia|]. split; [lia | reflexivity].
Qed.

Lemma query_page_size_witness :
  0 <= 1
  /\ 0 <= clamp_limit (ManagerSocket._manager_limit (ManagerSocket.mk 10 10)) (Some 5)
  /\ query clamp_limit no_projection name_only (ManagerSocket.mk 10 10)
       None None None None None None None None None (Some 5) 1 db_three
     = (mkQueryMetadata 3 2, ["m2"; "m3"])
  /\ 2 = Z.min 5 (Z.max 0 (3 - 1)).
Proof.
  split; [lia|]. split; [discriminate|]. split; [reflexivity|].
  apply (query_page_size clamp_limit no_projection name_only (ManagerSocket.mk 10 10)
           None None None None None None None None None (Some 5) 1 db_three);
    [lia | discriminate].
Defined.



Lemma filter_length_le_implied {A} (p q : A -> bool) (l : list A) :
  (forall x, In x l -> p x = true -> q x = true) ->
  (List.length (filter p l) <= List.length (filter q l))%nat.
Proof.
  induction l as [|x l IH]; simpl; intros H; [lia|].
  assert (IH' := IH (fun y Hy => H y (or_intror Hy))).
  destruct (p x) eqn:Ep.
  - rewrite (H x (or_introl eq_refl) Ep). simpl. lia.
  - destruct (q x); simpl; lia.
Qed.

Lemma narrows_matches {A} (given other : option A) (P : A -> Prop) :
  narrows given other ->
  (forall a, given = Some a -> P a) -> forall a, other = Some a -> P a.
Proof. intros [-> | ->]; [discriminate | auto]. Qed.

(** X4: the criteria of [query] are conjunctive: giving more criteria
    (each one of the second query is either absent or the same as in the
    first) never finds more managers. *)
Theorem query_more_criteria_find_fewer
    {R ManagerDict ProjOptions} calculate_limit get_query_proj_options
    (orm_dict : ProjOptions -> ComputeManagerORM.t -> ManagerDict)
    self mid name cluster hostname status mb ma
    mid' name' cluster' hostname' status' mb' ma'
    include exclude limit skip (d : Database R) :
  narrows mid mid' -> narrows name name' -> narrows cluster cluster' ->
  narrows hostname hostname' -> narrows status status' ->
  narrows mb mb' -> narrows ma ma' ->
  n_found (fst (query calculate_limit get_query_proj_options orm_dict self mid name
                  cluster hostname status mb ma include exclude limit skip d))
  <= n_found (fst (query calculate_limit get_query_proj_options orm_dict self mid'
                     name' cluster' hostname' status' mb' ma' include exclude limit
                     skip d)).
Proof.
  intros H1 H2 H3 H4 H5 H6 H7. unfold query, get_count. cbv zeta. simpl.
  apply inj_le. apply filter_length_le_implied.
  intros r _ Hr. apply query_and_query_true_iff in Hr.
  apply query_and_query_true_iff.
  destruct Hr as (G1 & G2 & G3 & G4 & G5 & G6 & G7).
  repeat split; intros a Ha.
  - exact (narrows_matches mid mid' _ H1 G1 a Ha).
  - exact (narrows_matches name name' _ H2 G2 a Ha).
  - exact (narrows_matches hostname hostname' _ H4 G3 a Ha).
  - exact (narrows_matches cluster cluster' _ H3 G4 a Ha).
  - exact (narrows_matches status status' _ H5 G5 a Ha).
  - exact (narrows_matches mb mb' _ H6 G6 a Ha).
  - exact (narrows_matches ma ma' _ H7 G7 a Ha).
Qed.

Lemma query_more_criteria_find_fewer_witness :
  n_found (fst (query clamp_limit no_projection name_only (ManagerSocket.mk 10 10)
                  None None None None (Some [active]) (Some 10) None None None None 0
                  db_three)) = 1
  /\ n_found (fst (query clamp_limit no_projection name_only (ManagerSocket.mk 10 10)
                     None None None None (Some [active]) None None None None None 0
                     db_three)) = 2
  /\ n_found (fst (query clamp_limit no_projection name_only (ManagerSocket.mk 10 10)
                     None None None None (Some [active]) (Some 10) None None None None 0
                     db_three))
     <= n_found (fst (query clamp_limit no_projection name_only (ManagerSocket.mk 10 10)
                        None None None None (Some [active]) None None None None None 0
                        db_three)).
Proof.
  split; [reflexivity|]. split; [reflexivity|].
  apply (query_more_criteria_find_fewer clamp_limit no_projection name_only
           (ManagerSocket.mk 10 10)
           None None None None (Some [active]) (Some 10) None
           None None None None (Some [active]) None None
           None None None 0 db_three);
    unfold narrows; auto.
Defined.

(** ** A manager from registration to deactivation *)

(** What a successful [activate] leaves. *)
Lemma activate_ok_inv {R} cd nd mv qv u programs tags (d d' : Database R) i lg :
  activate cd nd mv qv u programs tags d = (Ok i, d', lg) ->
  exists row,
    d' = mkDatabase (manager_table d ++ [row]) (manager_id_seq d + 1) (records d)
    /\ lg = []
    /\ i = Some (manager_id_seq d)
    /\ ComputeManagerORM.id row = i
    /\ ComputeManagerORM.name row = ManagerName.fullname nd
    /\ ComputeManagerORM.status row = active
    /\ select_by_name (ManagerName.fullname nd) d = []
    /\ strip_tags tags <> [] /\ strip_programs programs <> [].
Proof.
  intros H.
  destruct (activate_cases cd nd mv qv u programs tags d)
    as [[_ E] | [(_ & _ & E) | [(_ & _ & _ & E) | (Ht & Hp & Hs & row & E & Hid & Hn & Hst & _)]]];
    cbv zeta in E; rewrite E in H; try discriminate.
  injection H as <- <- <-. exists row. rewrite Hid. repeat split; auto.
Qed.

Lemma select_by_name_snoc {R} (n : string) (t : list ComputeManagerORM.t)
    (row : ComputeManagerORM.t) (seq : Z) (rec : R) (d : Database R) :
  manager_table d = t ->
  select_by_name n (mkDatabase (t ++ [row]) seq rec)
  = (select_by_name n d
     ++ if String.eqb (ComputeManagerORM.name row) n then [row] else [])%list.
Proof.
  intros <-. unfold select_by_name. simpl. rewrite filter_app. simpl.
  now destruct (String.eqb (ComputeManagerORM.name row) n).
Qed.

(** After a successful [activate] the name selects the new row alone. *)
Lemma select_after_activate {R} cd nd mv qv u programs tags (d d' : Database R) i lg :
  activate cd nd mv qv u programs tags d = (Ok i, d', lg) ->
  exists row, select_by_name (ManagerName.fullname nd) d' = [row]
    /\ manager_table d' = manager_table d ++ [row]
    /\ ComputeManagerORM.name row = ManagerName.fullname nd
    /\ ComputeManagerORM.status row = active
    /\ ComputeManagerORM.id row = i.
Proof.
  intros H. destruct (activate_ok_inv _ _ _ _ _ _ _ _ _ _ _ H)
    as (row & -> & _ & _ & Hid & Hn & Hst & Hs & _).
  exists row.
  rewrite (select_by_name_snoc _ (manager_table d) row _ _ d eq_refl), Hs, Hn,
    String.eqb_refl.
  repeat split; auto.
Qed.



(** X6: a manager that has just been registered can heartbeat: the first
    [update_resource_stats] under its name is accepted, logs nothing and
    leaves the manager active. *)
Theorem activate_then_heartbeat_accepted
    {R} cd nd mv qv u programs tags (d d' : Database R) i lg now w k a c mem :
  activate cd nd mv qv u programs tags d = (Ok i, d', lg) ->
  exists d'',
    update_resource_stats now (ManagerName.fullname nd) w k a c mem d' = (Ok tt, d'', [])
    /\ status_of (ManagerName.fullname nd) d'' = Some active.
Proof.
  intros H. destruct (select_after_activate _ _ _ _ _ _ _ _ _ _ _ H)
    as (row & Hs & _ & Hn & Hst & _).
  destruct (update_resource_stats_cases now (ManagerName.fullname nd) w k a c mem d')
    as [(Hs' & _) | [(m & Hs' & Hst' & _) | [(m & Hs' & _ & E) | (m1 & m2 & ms & Hs' & _)]]];
    try congruence.
  cbv zeta in E. eexists. split; [exact E|].
  assert (m = row) by congruence. subst m.
  unfold status_of.
  rewrite (select_by_name_write_back _ row _ d' Hs) by exact Hn.
  simpl. now rewrite Hst.
Qed.

Lemma activate_then_heartbeat_accepted_witness :
  activate defaults0 name_m2 "v" "v" None [("psi4", None)] ["*"] db_m1
  = (Ok (Some 2),
     snd (fst (activate defaults0 name_m2 "v" "v" None [("psi4", None)] ["*"] db_m1)), [])
  /\ exists d'',
       update_resource_stats 70 "m2" five two 3 4 five
         (snd (fst (activate defaults0 name_m2 "v" "v" None [("psi4", None)] ["*"] db_m1)))
       = (Ok tt, d'', [])
       /\ status_of "m2" d'' = Some active.
Proof.
  split; [reflexivity|].
  apply (activate_then_heartbeat_accepted defaults0 name_m2 "v" "v" None
           [("psi4", None)] ["*"] db_m1 _ (Some 2) [] 70 five two 3 4 five).
  reflexivity.
Defined.

(** X7: a name is registered once: after a successful [activate], any
    further [activate] under the same name whose tags and programs pass
    validation raises [DuplicateManagerError] and leaves the database as
    it was. *)
Theorem activate_twice_is_duplicate
    {R} cd nd mv qv u programs tags (d d' : Database R) i lg
    cd' mv' qv' u' programs' tags' :
  activate cd nd mv qv u programs tags d = (Ok i, d', lg) ->
  filter nonempty tags' <> [] ->
  filter (fun kv => nonempty (fst kv)) programs' <> [] ->
  activate cd' nd mv' qv' u' programs' tags' d'
  = (Raise DuplicateManagerError, d',
     [(WARNING, "Cannot activate duplicate manager: " ++ ManagerName.fullname nd)%string]).
Proof.
  intros H Ht Hp. destruct (select_after_activate _ _ _ _ _ _ _ _ _ _ _ H)
    as (row & Hs & _).
  rewrite <- strip_tags_nil_iff in Ht. rewrite <- strip_programs_nil_iff in Hp.
  destruct (activate_cases cd' nd mv' qv' u' programs' tags' d')
    as [[? _] | [(_ & ? & _) | [(_ & _ & _ & E) | (_ & _ & Hs' & _)]]];
    try contradiction; [exact E | congruence].
Qed.

Lemma activate_twice_is_duplicate_witness :
  filter nonempty ["gpu"] <> []
  /\ filter (fun kv : string * option string => nonempty (fst kv)) [("rdkit", None)] <> []
  /\ activate defaults0 name_m1 "v2" "v2" (Some "u") [("rdkit", None)] ["gpu"]
       (snd (fst (activate defaults0 name_m1 "v" "v" None [("psi4", None)] ["*"] db_empty)))
     = (Raise DuplicateManagerError,
        snd (fst (activate defaults0 name_m1 "v" "v" None [("psi4", None)] ["*"] db_empty)),
        [(WARNING, "Cannot activate duplicate manager: m1")]).
Proof.
  assert (Ht : filter nonempty ["gpu"] <> []) by discriminate.
  assert (Hp : filter (fun kv : string * option string => nonempty (fst kv))
                      [("rdkit", None)] <> []) by discriminate.
  split; [exact Ht|]. split; [exact Hp|].
  apply (activate_twice_is_duplicate defaults0 name_m1 "v" "v" None [("psi4", None)]
           ["*"] db_empty _ (Some 1) [] defaults0 "v2" "v2" (Some "u")
           [("rdkit", None)] ["gpu"]); [reflexivity | exact Ht | exact Hp].
Defined.

(** The sweep by one name looks at the rows of that name only. *)
Lemma deactivate_filter_one_name {R} (n : string) (d : Database R) :
  filter (deactivate_filter (Some [n]) None) (manager_table d)
  = filter (status_is active) (select_by_name n d).
Proof.
  unfold select_by_name. rewrite filter_andb. apply filter_ext. intros r.
  unfold deactivate_filter, status_is. simpl.
  now rewrite orb_false_r, andb_true_r.
Qed.

(** X8: deactivating a manager that has just been registered, by its
    name, returns exactly that name, releases its tasks with one call of
    the task subsystem, and leaves the manager inactive. *)
Theorem activate_then_deactivate_by_name
    {R} (reset_assigned : list string -> R -> list Z * R)
    cd nd mv qv u programs tags (d d' : Database R) i lg now reason :
  activate cd nd mv qv u programs tags d = (Ok i, d', lg) ->
  exists d'' lines,
    deactivate reset_assigned now (Some [ManagerName.fullname nd]) None reason d'
    = (Ok [ManagerName.fullname nd], d'', lines)
    /\ records d'' = snd (reset_assigned [ManagerName.fullname nd] (records d))
    /\ List.length lines = 1%nat
    /\ status_of (ManagerName.fullname nd) d'' = Some inactive.
Proof.
  intros H.
  destruct (select_after_activate _ _ _ _ _ _ _ _ _ _ _ H)
    as (row & Hs & _ & Hn & Hst & _).
  assert (Hrec : records d' = records d).
  { destruct (activate_ok_inv _ _ _ _ _ _ _ _ _ _ _ H) as (row' & -> & _). reflexivity. }
  destruct (deactivate_cases reset_assigned now (Some [ManagerName.fullname nd]) None
              reason d') as [(Hn' & _) | [_ E]]; [discriminate|].
  cbv zeta in E. rewrite deactivate_filter_one_name, Hs in E.
  assert (Ef : filter (status_is active) [row] = [row])
    by (simpl; unfold status_is; now rewrite Hst).
  rewrite Ef in E. simpl map in E. rewrite Hn in E.
  eexists _, _. split; [exact E|]. cbn [records].
  destruct (reset_orphans_fold reset_assigned reason [ManagerName.fullname nd] (records d'))
    as [F1 F2].
  rewrite F1, F2, Hrec. split; [reflexivity|]. split; [reflexivity|].
  unfold status_of, select_by_name. cbn [manager_table].
  rewrite filter_name_map
    by (intros r; now destruct (deactivate_filter (Some [ManagerName.fullname nd]) None r)).
  fold (select_by_name (ManagerName.fullname nd) d'). rewrite Hs.
  assert (Hf : deactivate_filter (Some [ManagerName.fullname nd]) None row = true).
  { unfold deactivate_filter. cbn [truthy_names existsb].
    now rewrite Hst, Hn, String.eqb_refl. }
  cbn [map]. rewrite Hf. reflexivity.
Qed.

Lemma activate_then_deactivate_by_name_witness :
  activate defaults0 name_m2 "v" "v" None [("psi4", None)] ["*"] db_m1
  = (Ok (Some 2),
     snd (fst (activate defaults0 name_m2 "v" "v" None [("psi4", None)] ["*"] db_m1)), [])
  /\ exists d'' lines,
       deactivate call_recorder 90 (Some ["m2"]) None "done"
         (snd (fst (activate defaults0 name_m2 "v" "v" None [("psi4", None)] ["*"] db_m1)))
       = (Ok ["m2"], d'', lines)
       /\ records d'' = [["m2"]].
Proof.
  split; [reflexivity|].
  destruct (activate_then_deactivate_by_name call_recorder defaults0 name_m2 "v" "v" None
              [("psi4", None)] ["*"] db_m1 _ (Some 2) [] 90 "done" eq_refl)
    as (d'' & lines & E & Hr & _).
  exists d'', lines. split; [exact E | exact Hr].
Defined.

(** A row the sweep has looked at no longer matches it. *)
Lemma deactivate_filter_after now name mb (r : ComputeManagerORM.t) :
  deactivate_filter name mb
    (if deactivate_filter name mb r then deactivate_values now r else r) = false.
Proof.
  destruct (deactivate_filter name mb r) eqn:E; [reflexivity | exact E].
Qed.

Lemma filter_after_sweep now name mb (t : list ComputeManagerORM.t) :
  filter (deactivate_filter name mb)
         (map (fun r => if deactivate_filter name mb r then deactivate_values now r else r) t)
  = [].
Proof.
  induction t as [|r t IH]; simpl; [reflexivity|].
  now rewrite deactivate_filter_after.
Qed.

(** X9: [deactivate] is idempotent: right after a sweep, the same sweep
    (at any later time, for any reason) returns no name, changes no row,
    calls the task subsystem for nobody and logs nothing. *)
Theorem deactivate_twice_finds_nothing
    {R} (reset_assigned : list string -> R -> list Z * R)
    now name mb reason (d d' : Database R) dead lg now' reason' :
  deactivate reset_assigned now name mb reason d = (Ok dead, d', lg) ->
  deactivate reset_assigned now' name mb reason' d' = (Ok [], d', []).
Proof.
  intros H.
  destruct (deactivate_cases reset_assigned now name mb reason d)
    as [(Hn & Hm & E) | [Hsup E]]; cbv zeta in E; rewrite E in H;
    injection H as <- <- <-.
  - unfold deactivate. subst mb. now rewrite Hn.
  - destruct (deactivate_cases reset_assigned now' name mb reason' (mkDatabase
        (map (fun r => if deactivate_filter name mb r then deactivate_values now r else r)
             (manager_table d))
        (manager_id_seq d)
        (fst (reset_orphans reset_assigned reason
                (map ComputeManagerORM.name
                   (filter (deactivate_filter name mb) (manager_table d)))
                (records d)))))
      as [(Hn & Hm & E') | [_ E']]; cbv zeta in E'.
    + destruct Hsup; congruence.
    + rewrite E'. simpl manager_table. rewrite filter_after_sweep. simpl.
      f_equal. f_equal. f_equal.
      rewrite map_map. apply map_ext. intros r.
      now rewrite deactivate_filter_after.
Qed.

Lemma deactivate_twice_finds_nothing_witness :
  deactivate call_recorder 60 (Some ["m1"; "m3"]) None "gone" db_three
  = (Ok ["m1"],
     snd (fst (deactivate call_recorder 60 (Some ["m1"; "m3"]) None "gone" db_three)),
     [(INFO, "Deactivated manager m1. Reason: gone. Recycling 0 incomplete tasks.")])
  /\ deactivate call_recorder 80 (Some ["m1"; "m3"]) None "again"
       (snd (fst (deactivate call_recorder 60 (Some ["m1"; "m3"]) None "gone" db_three)))
     = (Ok [],
        snd (fst (deactivate call_recorder 60 (Some ["m1"; "m3"]) None "gone" db_three)),
        []).
Proof.
  split; [reflexivity|].
  apply (deactivate_twice_finds_nothing call_recorder 60 (Some ["m1"; "m3"]) None "gone"
           db_three _ ["m1"]
           [(INFO, "Deactivated manager m1. Reason: gone. Recycling 0 incomplete tasks.")]
           80 "again").
  reflexivity.
Defined.




(** ** What every call preserves *)

Lemma update_resource_stats_keeps_keys {R} now n w k a c mem (d : Database R) :
  map (fun r => (ComputeManagerORM.id r, ComputeManagerORM.name r))
      (manager_table (snd (fst (update_resource_stats now n w k a c mem d))))
  = map (fun r => (ComputeManagerORM.id r, ComputeManagerORM.name r)) (manager_table d).
Proof.
  destruct (update_resource_stats_cases now n w k a c mem d)
    as [(_ & E) | [(m & _ & _ & E) | [(m & Hs & _ & E) | (m1 & m2 & ms & _ & E)]]];
    cbv zeta in E; rewrite E; try reflexivity.
  simpl. rewrite map_map. apply map_ext_in. intros r Hr.
  destruct (String.eqb_spec (ComputeManagerORM.name r) n) as [En|]; [|reflexivity].
  assert (Hin : In r (select_by_name n d)) by now apply select_by_name_In.
  rewrite Hs in Hin. destruct Hin as [<- | []]. reflexivity.
Qed.

Lemma deactivate_keeps_keys {R} (reset_assigned : list string -> R -> list Z * R)
    now name mb reason (d : Database R) :
  map (fun r => (ComputeManagerORM.id r, ComputeManagerORM.name r))
      (manager_table (snd (fst (deactivate reset_assigned now name mb reason d))))
  = map (fun r => (ComputeManagerORM.id r, ComputeManagerORM.name r)) (manager_table d).
Proof.
  destruct (deactivate_cases reset_assigned now name mb reason d)
    as [(_ & _ & E) | [_ E]]; cbv zeta in E; rewrite E; [reflexivity|].
  simpl. rewrite map_map. apply map_ext. intros r.
  now destruct (deactivate_filter name mb r).
Qed.



Lemma names_of_keys (t : list ComputeManagerORM.t) :
  map ComputeManagerORM.name t
  = map snd (map (fun r => (ComputeManagerORM.id r, ComputeManagerORM.name r)) t).
Proof. rewrite map_map. reflexivity. Qed.

Lemma step_unique_names {R} (reset_assigned : list string -> R -> list Z * R)
    cd (d : Database R) (c : Call) :
  unique_names d -> unique_names (step reset_assigned cd d c).
Proof.
  intros Hu.
  destruct c as [nd mv qv u programs tags | now n w k a cs mem | now name mb reason];
    simpl.
  - now apply activate_unique_names.
  - unfold unique_names in *.
    now rewrite names_of_keys, update_resource_stats_keeps_keys, <- names_of_keys.
  - unfold unique_names in *.
    now rewrite names_of_keys, deactivate_keeps_keys, <- names_of_keys.
Qed.

(** X12: the names of the managers stay pairwise distinct along any
    sequence of calls: a name, once registered, is never given to a second
    manager, and then a name selects at most one row. *)
Theorem names_stay_unique
    {R} (reset_assigned : list string -> R -> list Z * R) cd
    (calls : list Call) (d : Database R) :
  unique_names d ->
  unique_names (run reset_assigned cd d calls)
  /\ forall n, (List.length (select_by_name n (run reset_assigned cd d calls)) <= 1)%nat.
Proof.
  intros Hu.
  assert (Hrun : unique_names (run reset_assigned cd d calls)).
  { revert d Hu. induction calls as [|c calls IH]; intros d Hu; simpl; [assumption|].
    apply IH. now apply step_unique_names. }
  split; [exact Hrun|]. intros n.
  destruct (select_by_name n (run reset_assigned cd d calls)) as [|r rs] eqn:E;
    [simpl; lia|].
  assert (Hr : In r (select_by_name n (run reset_assigned cd d calls)))
    by (rewrite E; now left).
  apply select_by_name_In in Hr. destruct Hr as [Hr <-].
  rewrite (select_by_name_unique _ r Hrun Hr) in E.
  injection E as <-. simpl. lia.
Qed.

Lemma names_stay_unique_witness :
  unique_names db_empty
  /\ map ComputeManagerORM.name
       (manager_table (run call_recorder defaults0 db_empty
                         (life_of_m1
                          ++ [CallActivate name_m2 "v" "v" None [("psi4", None)] ["*"]])))
     = ["m1"; "m2"]
  /\ unique_names (run call_recorder defaults0 db_empty
                     (life_of_m1
                      ++ [CallActivate name_m2 "v" "v" None [("psi4", None)] ["*"]])).
Proof.
  assert (Hu : unique_names db_empty) by constructor.
  split; [exact Hu|]. split; [reflexivity|].
  apply (names_stay_unique call_recorder defaults0
           (life_of_m1 ++ [CallActivate name_m2 "v" "v" None [("psi4", None)] ["*"]])
           db_empty Hu).
Defined.

(** ** The log of a manager *)

Lemma step_extends_log {R} (reset_assigned : list string -> R -> list Z * R)
    cd (d : Database R) (c : Call) n l :
  log_of n d = Some l ->
  exists ext,
    log_of n (step reset_assigned cd d c) = Some (l ++ ext)
    /\ List.length ext = heartbeats_accepted reset_assigned cd n d [c].
Proof.
  intros Hl.
  destruct c as [nd mv qv u programs tags | now n0 w k a cs mem | now name mb reason];
    cbn [step heartbeats_accepted].
  - exists []. rewrite app_nil_r. split; [|reflexivity].
    destruct (activate_cases cd nd mv qv u programs tags d)
      as [[_ E] | [(_ & _ & E) | [(_ & _ & _ & E) | (_ & _ & _ & row & E & _)]]];
      cbv zeta in E; rewrite E; simpl; try assumption.
    revert Hl. unfold log_of, select_by_name. simpl. rewrite filter_app.
    now destruct (filter _ (manager_table d)).
  - destruct (update_resource_stats_cases now n0 w k a cs mem d)
      as [(_ & E) | [(m & _ & _ & E) | [(m & Hs & _ & E) | (m1 & m2 & ms & _ & E)]]];
      cbv zeta in E; rewrite E; simpl fst; simpl snd;
      try (exists []; rewrite app_nil_r; split; [assumption | reflexivity]).
    assert (Hn : ComputeManagerORM.name m = n0).
    { assert (Hin : In m (select_by_name n0 d)) by (rewrite Hs; now left).
      apply select_by_name_In in Hin. tauto. }
    destruct (String.eqb_spec n0 n) as [->|Hne].
    + unfold log_of in *. rewrite Hs in Hl. injection Hl as <-.
      rewrite (select_by_name_write_back n m _ d Hs) by exact Hn.
      eexists [_]. split; reflexivity.
    + exists []. rewrite app_nil_r. split; [|reflexivity].
      revert Hl. unfold log_of, select_by_name, write_back. simpl.
      rewrite filter_name_write_back; auto.
  - exists []. rewrite app_nil_r. split; [|reflexivity].
    destruct (deactivate_cases reset_assigned now name mb reason d)
      as [(_ & _ & E) | [_ E]]; cbv zeta in E; rewrite E; simpl; [assumption|].
    clear E. revert Hl. unfold log_of, select_by_name. simpl.
    rewrite filter_name_map by (intros r; now destruct (deactivate_filter name mb r)).
    destruct (filter _ (manager_table d)) as [|r rs]; simpl; [discriminate|].
    now destruct (deactivate_filter name mb r).
Qed.

(** X13: the log of a manager is append-only: along any sequence of calls
    the entries it holds are kept, in order, and it grows by exactly one
    entry for each heartbeat accepted under its name, and by nothing
    else. *)
Theorem log_is_append_only
    {R} (reset_assigned : list string -> R -> list Z * R) cd
    (calls : list Call) (d : Database R) n l :
  log_of n d = Some l ->
  exists ext,
    log_of n (run reset_assigned cd d calls) = Some (l ++ ext)
    /\ List.length ext = heartbeats_accepted reset_assigned cd n d calls.
Proof.
  revert d l. induction calls as [|c calls IH]; intros d l Hl.
  - exists []. rewrite app_nil_r. now split.
  - destruct (step_extends_log reset_assigned cd d c n l Hl) as (ext1 & H1 & L1).
    destruct (IH _ _ H1) as (ext2 & H2 & L2).
    exists (ext1 ++ ext2). cbn [run fold_left] in *. fold (run reset_assigned cd) in H2.
    split.
    + unfold run in *. rewrite H2. now rewrite app_assoc.
    + rewrite length_app, L1, L2. cbn [heartbeats_accepted]. lia.
Qed.

Lemma log_is_append_only_witness :
  log_of "m1" db_m1 = Some []
  /\ heartbeats_accepted call_recorder defaults0 "m1" db_m1
       (CallUpdate 5 "m1" five two 1 1 five :: life_of_m1) = 2%nat
  /\ exists ext,
       log_of "m1" (run call_recorder defaults0 db_m1
                      (CallUpdate 5 "m1" five two 1 1 five :: life_of_m1))
       = Some ([] ++ ext)
       /\ List.length ext = 2%nat.
Proof.
  split; [reflexivity|]. split; [reflexivity|].
  destruct (log_is_append_only call_recorder defaults0
              (CallUpdate 5 "m1" five two 1 1 five :: life_of_m1) db_m1 "m1" []
              eq_refl) as (ext & H & L).
  exists ext. split; [exact H|]. rewrite L. reflexivity.
Defined.

(** ** Heartbeats against sweeps *)

(** X14: a manager whose heartbeat was accepted at some time survives
    every sweep whose staleness cutoff is not later than that time,
    whatever names the sweep carries: it is not among the names returned
    and it is still active. *)
Theorem heartbeat_survives_sweep
    {R} (reset_assigned : list string -> R -> list Z * R)
    now n w k a c mem (d d1 d2 : Database R) lg
    now' name cutoff reason dead lg2 :
  update_resource_stats now n w k a c mem d = (Ok tt, d1, lg) ->
  cutoff <= now ->
  deactivate reset_assigned now' name (Some cutoff) reason d1 = (Ok dead, d2, lg2) ->
  ~ In n dead /\ status_of n d2 = Some active.
Proof.
  intros Hup Hle Hde.
  destruct (update_resource_stats_cases now n w k a c mem d)
    as [(_ & E) | [(m & _ & _ & E) | [(m & Hs & Hst & E) | (m1 & m2 & ms & _ & E)]]];
    cbv zeta in E; rewrite E in Hup; try discriminate.
  injection Hup as <- <-.
  assert (Hn : ComputeManagerORM.name m = n).
  { assert (Hin : In m (select_by_name n d)) by (rewrite Hs; now left).
    apply select_by_name_In in Hin. tauto. }
  pose proof (select_by_name_write_back n m (heartbeat_row now w k a c mem m) d Hs Hn)
    as Hs1.
  remember (write_back n (heartbeat_row now w k a c mem m) d) as db1 eqn:Edb1.
  clear Edb1 E.
  assert (Hf : deactivate_filter name (Some cutoff) (heartbeat_row now w k a c mem m)
               = false).
  { unfold deactivate_filter.
    replace (ComputeManagerORM.modified_on (heartbeat_row now w k a c mem m) <? cutoff)
      with false; [apply andb_false_r|].
    symmetry. apply Z.ltb_ge. exact Hle. }
  destruct (deactivate_cases reset_assigned now' name (Some cutoff) reason db1)
    as [(_ & Hm & _) | [_ E']]; [discriminate|].
  cbv zeta in E'. rewrite E' in Hde. injection Hde as <- <- <-. split.
  - intros Hin. apply in_map_iff in Hin. destruct Hin as (r & Hr & Hin).
    apply filter_In in Hin. destruct Hin as [Hin Hfr].
    assert (Hsel : In r (select_by_name n db1)) by now apply select_by_name_In.
    rewrite Hs1 in Hsel. destruct Hsel as [<- | []]. congruence.
  - unfold status_of, select_by_name. cbn [manager_table].
    rewrite filter_name_map
      by (intros r; now destruct (deactivate_filter name (Some cutoff) r)).
    fold (select_by_name n db1). rewrite Hs1. cbn [map]. rewrite Hf.
    now rewrite <- Hst.
Qed.

Lemma heartbeat_survives_sweep_witness :
  update_resource_stats 100 "m2" five two 3 4 five db_three
  = (Ok tt, snd (fst (update_resource_stats 100 "m2" five two 3 4 five db_three)), [])
  /\ 60 <= 100
  /\ fst (fst (deactivate call_recorder 110 None (Some 60) "sweep"
                 (snd (fst (update_resource_stats 100 "m2" five two 3 4 five db_three)))))
     = Ok ["m1"]
  /\ fst (fst (deactivate call_recorder 110 None (Some 60) "sweep" db_three))
     = Ok ["m1"; "m2"]
  /\ ~ In "m2" ["m1"].
Proof.
  split; [vm_compute; reflexivity|]. split; [lia|].
  split; [vm_compute; reflexivity|]. split; [vm_compute; reflexivity|].
  refine (proj1 (heartbeat_survives_sweep call_recorder 100 "m2" five two 3 4 five db_three
           (snd (fst (update_resource_stats 100 "m2" five two 3 4 five db_three)))
           (snd (fst (deactivate call_recorder 110 None (Some 60) "sweep"
                        (snd (fst (update_resource_stats 100 "m2" five two 3 4 five
                                     db_three))))))
           [] 110 None 60 "sweep" ["m1"]
           (snd (deactivate call_recorder 110 None (Some 60) "sweep"
                   (snd (fst (update_resource_stats 100 "m2" five two 3 4 five db_three)))))
           _ _ _));
    [vm_compute; reflexivity | lia | vm_compute; reflexivity].
Defined.

(** ** Normalising twice *)

Lemma setitem_fresh {V} (k : string) (v : V) (d : dict V) :
  ~ In k (keys d) -> setitem k v d = (d ++ [(k, v)])%list.
Proof.
  induction d as [|[k' v'] d IH]; simpl; intros H; [reflexivity|].
  destruct (String.eqb_spec k' k) as [->|]; [elim H; now left|].
  rewrite IH; [reflexivity | tauto].
Qed.

Lemma update_fresh {V} (items d : dict V) :
  NoDup (keys items) -> (forall k, In k (keys items) -> ~ In k (keys d)) ->
  update d items = (d ++ items)%list.
Proof.
  unfold update. revert d. induction items as [|[k v] items IH]; intros d Hnd Hfresh; simpl.
  - now rewrite app_nil_r.
  - inversion Hnd as [|? ? Hk Hnd']; subst.
    rewrite setitem_fresh by (apply Hfresh; now left).
    rewrite IH; [now rewrite <- app_assoc | assumption |].
    intros k' Hk'. unfold keys. rewrite map_app, in_app_iff. simpl.
    intros [H | [<- | []]]; [|contradiction].
    apply (Hfresh k'); [now right | assumption].
Qed.

Lemma map_filter_clean {A} (f : A -> A) (p : A -> bool) (l : list A) :
  (forall x, In x l -> p x = true /\ f x = x) -> map f (filter p l) = l.
Proof.
  induction l as [|x l IH]; simpl; intros H; [reflexivity|].
  destruct (H x (or_introl eq_refl)) as [Hp Hf]. rewrite Hp. simpl.
  rewrite Hf, IH; auto.
Qed.

(** X15: the normalisation of [activate] is idempotent: handing the tags
    and the programs a manager was stored with back to [activate] stores
    them unchanged. *)
Theorem normalising_twice_changes_nothing
    (tags : list string) (programs : dict (option string)) :
  keys (fromkeys (strip_tags (keys (fromkeys (strip_tags tags)))))
  = keys (fromkeys (strip_tags tags))
  /\ strip_programs (strip_programs programs) = strip_programs programs.
Proof.
  split.
  - rewrite !keys_fromkeys.
    assert (E : strip_tags (dedup_first_seen (strip_tags tags))
                = dedup_first_seen (strip_tags tags)).
    { unfold strip_tags at 1. apply map_filter_clean. intros t Ht.
      apply dedup_first_seen_In, strip_tags_clean in Ht. destruct Ht as [Hne Hl].
      split; [now apply nonempty_true | assumption]. }
    rewrite E. apply dedup_first_seen_id, dedup_first_seen_NoDup.
  - rewrite (strip_programs_update (strip_programs programs)).
    assert (E : lowered_items (strip_programs programs) = strip_programs programs).
    { unfold lowered_items. apply map_filter_clean. intros [k v] Hkv.
      assert (Hk : In k (keys (strip_programs programs)))
        by (apply in_map_iff; now exists (k, v)).
      rewrite keys_strip_programs in Hk.
      apply dedup_first_seen_In, lowered_items_clean in Hk. destruct Hk as [Hne Hl].
      simpl. split; [now apply nonempty_true | now rewrite Hl]. }
    rewrite E. rewrite update_fresh; [reflexivity | | intros k _ []].
    rewrite keys_strip_programs. apply dedup_first_seen_NoDup.
Qed.

(** * The queue adapter *)

Lemma split_dot_once_not_nil (s : string) : split_dot_once s <> [].
Proof.
  induction s as [|c s IH]; simpl; [discriminate|].
  destruct (Ascii.eqb c "."); [discriminate|].
  destruct (split_dot_once s) as [|x [|y l]]; [contradiction | discriminate | discriminate].
Qed.

Lemma split_dot_once_no_dot (s : string) : has_dot s = false -> split_dot_once s = [s].
Proof.
  induction s as [|c s IH]; simpl; [reflexivity|].
  destruct (Ascii.eqb c "."); simpl; [discriminate|].
  intros H. now rewrite (IH H).
Qed.

Lemma split_dot_once_first_dot (m rest : string) :
  has_dot m = false ->
  split_dot_once (m ++ String "." rest)%string = [m; rest].
Proof.
  induction m as [|c m IH]; simpl; [reflexivity|].
  destruct (Ascii.eqb c "."); simpl; [discriminate|].
  intros H. now rewrite (IH H).
Qed.

Lemma get_setitem_same {V} (k : string) (v : V) (d : dict V) :
  Py.get k (setitem k v d) = Some v.
Proof. rewrite get_setitem. now rewrite String.eqb_refl. Qed.

(** X16: [get_function] caches what it resolves: once a call has returned
    a function, every later call for the same path returns that function
    from the cache, whatever the importer would now answer, and leaves the
    adapter as it is. *)
Theorem get_function_caches
    {Client Logger Callable Task V Module_ Module_' : Type}
    (import_module : string -> pyresult Module_)
    (attrgetter : string -> Module_ -> pyresult Callable)
    (import_module' : string -> pyresult Module_')
    (attrgetter' : string -> Module_' -> pyresult Callable)
    (self self' : BaseAdapter.t Client Logger Callable Task V) (function : string)
    (f : Callable) :
  BaseAdapter.get_function import_module attrgetter self function = (Returns f, self') ->
  BaseAdapter.get_function import_module' attrgetter' self' function = (Returns f, self').
Proof.
  unfold BaseAdapter.get_function at 1.
  destruct (Py.get function (BaseAdapter.function_map self)) as [f0|] eqn:Eg.
  - intros [= <- <-]. unfold BaseAdapter.get_function. now rewrite Eg.
  - destruct (split_dot_once function) as [|a [|b [|c l]]]; try discriminate.
    destruct (import_module a) as [md|e]; [|discriminate].
    destruct (attrgetter b md) as [g|e]; [|discriminate].
    cbv zeta. unfold BaseAdapter.set_function_map; cbn [BaseAdapter.function_map].
    rewrite get_setitem_same. intros [= <- <-].
    unfold BaseAdapter.get_function.
    unfold BaseAdapter.set_function_map; cbn [BaseAdapter.function_map].
    now rewrite get_setitem_same.
Qed.

Lemma get_function_caches_witness :
  exists self',
    BaseAdapter.get_function import_numpy attr_numpy adapter0 "numpy.linalg.norm"
    = (Returns "<function linalg.norm>", self')
    /\ BaseAdapter.function_map self' = [("numpy.linalg.norm", "<function linalg.norm>")]
    /\ BaseAdapter.get_function import_nothing attr_numpy self' "numpy.linalg.norm"
       = (Returns "<function linalg.norm>", self').
Proof.
  eexists. split; [reflexivity|]. split; [reflexivity|].
  apply (get_function_caches import_numpy attr_numpy import_nothing attr_numpy adapter0).
  reflexivity.
Defined.

(** X17: a path without a dot that is not in the cache cannot be
    resolved: [get_function] raises [ValueError] (the split gives one part
    where two are unpacked), imports nothing and leaves the adapter as it
    is. *)
Theorem get_function_needs_a_dot
    {Client Logger Callable Task V Module_ : Type}
    (import_module : string -> pyresult Module_)
    (attrgetter : string -> Module_ -> pyresult Callable)
    (self : BaseAdapter.t Client Logger Callable Task V) (function : string) :
  has_dot function = false ->
  Py.get function (BaseAdapter.function_map self) = None ->
  BaseAdapter.get_function import_module attrgetter self function
  = (Raises (ValueError "not enough values to unpack (expected 2, got 1)"), self).
Proof.
  intros Hd Hg. unfold BaseAdapter.get_function.
  now rewrite Hg, (split_dot_once_no_dot _ Hd).
Qed.

Lemma get_function_needs_a_dot_witness :
  has_dot "numpy" = false
  /\ Py.get "numpy" (BaseAdapter.function_map adapter0) = None
  /\ BaseAdapter.get_function import_numpy attr_numpy adapter0 "numpy"
     = (Raises (ValueError "not enough values to unpack (expected 2, got 1)"), adapter0).
Proof.
  split; [reflexivity|]. split; [reflexivity|].
  apply (get_function_needs_a_dot import_numpy attr_numpy adapter0 "numpy");
    reflexivity.
Defined.

(** X18: a path that is not in the cache is split at its first dot: the
    module imported is the part before it, the attribute looked up is all
    that follows (dots included); a failure of either is raised and leaves
    the adapter as it is, a success is returned and cached under the whole
    path. *)
Theorem get_function_splits_at_first_dot
    {Client Logger Callable Task V Module_ : Type}
    (import_module : string -> pyresult Module_)
    (attrgetter : string -> Module_ -> pyresult Callable)
    (self : BaseAdapter.t Client Logger Callable Task V)
    (module_name func_name : string) :
  has_dot module_name = false ->
  Py.get (module_name ++ String "." func_name)%string (BaseAdapter.function_map self)
  = None ->
  BaseAdapter.get_function import_module attrgetter self
    (module_name ++ String "." func_name)%string
  = match import_module module_name with
    | Raises e => (Raises e, self)
    | Returns module =>
        match attrgetter func_name module with
        | Raises e => (Raises e, self)
        | Returns f =>
            (Returns f,
             BaseAdapter.set_function_map
               (BaseAdapter.function_map self
                ++ [((module_name ++ String "." func_name)%string, f)])
               self)
        end
    end.
Proof.
  intros Hd Hg. unfold BaseAdapter.get_function.
  rewrite Hg, (split_dot_once_first_dot _ _ Hd).
  destruct (import_module module_name) as [md|e]; [|reflexivity].
  destruct (attrgetter func_name md) as [f|e]; [|reflexivity].
  cbv zeta. unfold BaseAdapter.set_function_map; cbn [BaseAdapter.function_map].
  rewrite get_setitem_same. rewrite setitem_fresh; [reflexivity|].
  intros Hin. clear -Hin Hg. revert Hg Hin.
  induction (BaseAdapter.function_map self) as [|[k v] d IH]; simpl; [tauto|].
  destruct (String.eqb_spec k (module_name ++ String "." func_name)%string) as [->|Hne];
    [discriminate|].
  intros Hg [H | H]; [contradiction | now apply IH].
Qed.

Lemma get_function_splits_at_first_dot_witness :
  has_dot "numpy" = false
  /\ Py.get "numpy.linalg.norm" (BaseAdapter.function_map adapter0) = None
  /\ BaseAdapter.get_function import_numpy attr_numpy adapter0 "numpy.linalg.norm"
     = (Returns "<function linalg.norm>",
        BaseAdapter.set_function_map
          [("numpy.linalg.norm", "<function linalg.norm>")] adapter0)
  /\ BaseAdapter.get_function import_numpy attr_numpy adapter0 "scipy.linalg.norm"
     = (Raises (ImportError "No module named 'scipy'"), adapter0).
Proof.
  split; [reflexivity|]. split; [reflexivity|]. split.
  - apply (get_function_splits_at_first_dot import_numpy attr_numpy adapter0
             "numpy" "linalg.norm"); reflexivity.
  - apply (get_function_splits_at_first_dot import_numpy attr_numpy adapter0
             "scipy" "linalg.norm"); reflexivity.
Defined.

(** X19: [get_function] only ever adds to the cache: an entry of the
    function map is still there, unchanged, after any call, and a call
    that raises leaves the whole adapter as it was. *)
Theorem get_function_keeps_the_cache
    {Client Logger Callable Task V Module_ : Type}
    (import_module : string -> pyresult Module_)
    (attrgetter : string -> Module_ -> pyresult Callable)
    (self : BaseAdapter.t Client Logger Callable Task V) (function : string) :
  (forall k f, Py.get k (BaseAdapter.function_map self) = Some f ->
     Py.get k (BaseAdapter.function_map
                 (snd (BaseAdapter.get_function import_module attrgetter self function)))
     = Some f)
  /\ (forall e, fst (BaseAdapter.get_function import_module attrgetter self function)
                = Raises e ->
       snd (BaseAdapter.get_function import_module attrgetter self function) = self).
Proof.
  unfold BaseAdapter.get_function.
  destruct (Py.get function (BaseAdapter.function_map self)) as [f0|] eqn:Eg;
    [split; auto|].
  destruct (split_dot_once function) as [|a [|b [|c l]]]; try (split; auto; fail).
  destruct (import_module a) as [md|e]; [|split; auto].
  destruct (attrgetter b md) as [g|e]; [|split; auto].
  cbv zeta. unfold BaseAdapter.set_function_map; cbn [BaseAdapter.function_map].
  rewrite get_setitem_same. cbn [fst snd BaseAdapter.function_map]. split.
  - intros k f Hk. rewrite get_setitem.
    destruct (String.eqb_spec function k) as [->|]; [congruence | assumption].
  - discriminate.
Qed.

Lemma get_function_keeps_the_cache_witness :
  let self1 := snd (BaseAdapter.get_function import_numpy attr_numpy adapter0 "numpy.einsum") in
  Py.get "numpy.einsum" (BaseAdapter.function_map self1) = Some "<function einsum>"
  /\ Py.get "numpy.einsum"
       (BaseAdapter.function_map
          (snd (BaseAdapter.get_function import_numpy attr_numpy self1 "numpy.linalg.norm")))
     = Some "<function einsum>"
  /\ fst (BaseAdapter.get_function import_numpy attr_numpy self1 "numpy.nothing")
     = Raises (AttributeError "nothing")
  /\ snd (BaseAdapter.get_function import_numpy attr_numpy self1 "numpy.nothing") = self1.
Proof.
  intros self1. split; [reflexivity|]. split.
  - apply (get_function_keeps_the_cache import_numpy attr_numpy self1 "numpy.linalg.norm").
    reflexivity.
  - split; [reflexivity|].
    apply (proj2 (get_function_keeps_the_cache import_numpy attr_numpy self1
                    "numpy.nothing") (AttributeError "nothing")).
    reflexivity.
Defined.

(** X20: [qcengine_local_options] holds the memory per task under
    ["memory"] and the cores per task under ["ncores"], each exactly when
    it was set, and nothing else. *)
Theorem qcengine_local_options_lookup
    {Client Logger Callable Task V : Type}
    (self : BaseAdapter.t Client Logger Callable Task V) (k : string) :
  Py.get k (BaseAdapter.qcengine_local_options self)
  = if String.eqb k "memory" then BaseAdapter.memory_per_task self
    else if String.eqb k "ncores" then BaseAdapter.cores_per_task self
    else None.
Proof.
  unfold BaseAdapter.qcengine_local_options. cbv zeta.
  destruct (BaseAdapter.memory_per_task self) as [m|],
           (BaseAdapter.cores_per_task self) as [c|];
    rewrite ?get_setitem; cbn [Py.get];
    rewrite ?(String.eqb_sym _ k);
    destruct (String.eqb k "memory") eqn:Em;
    destruct (String.eqb k "ncores") eqn:En; try reflexivity.
  all: apply String.eqb_eq in Em, En; subst k; discriminate.
Qed.

(** * Collections *)

(** ** Uploading molecules in chunks *)

Lemma range_loop_below (fuel i stop step : nat) (j : nat) :
  In j (range_loop fuel i stop step) -> (j < stop)%nat.
Proof.
  revert i. induction fuel as [|fuel IH]; intros i; cbn [range_loop]; [intros []|].
  destruct (Nat.ltb_spec i stop) as [Hlt|]; [|intros []].
  intros [<- | H]; [assumption | now apply (IH _ H)].
Qed.

(** The slices taken at the steps of the range, put end to end, are the
    list from the first step on. *)
Lemma range_loop_slices {A} (l : list A) (step fuel i : nat) :
  (0 < step)%nat -> (List.length l - i <= fuel)%nat ->
  List.concat (map (fun j => slice l j (j + step)) (range_loop fuel i (List.length l) step))
  = skipn i l.
Proof.
  intros Hstep. revert i. induction fuel as [|fuel IH]; intros i Hfuel; cbn [range_loop].
  - symmetry. apply skipn_all2. lia.
  - destruct (Nat.ltb_spec i (List.length l)) as [Hlt|Hge]; cbn [map List.concat].
    + rewrite IH by lia. unfold slice.
      replace (i + step - i)%nat with step by lia.
      replace (i + step)%nat with (step + i)%nat by lia.
      rewrite <- skipn_skipn. apply firstn_skipn.
    + symmetry. apply skipn_all2. lia.
Qed.

Lemma fold_left_extend {A B} (f : B -> list A) (starts : list B) (acc : list A) :
  fold_left (fun mol_ret i => mol_ret ++ f i) starts acc
  = (acc ++ List.concat (map f starts))%list.
Proof.
  revert acc. induction starts as [|i starts IH]; intros acc; simpl.
  - now rewrite app_nil_r.
  - now rewrite IH, app_assoc.
Qed.

(** The requests [_add_molecules_by_dict] makes under a positive limit. *)
Lemma add_molecules_in_bounded_chunks_aux
    {Mol Id} (client : Collection.PortalClient Mol Id) (molecules : dict Mol) :
  Collection.query_limit client > 0 ->
  exists chunks,
    List.concat chunks = map snd molecules
    /\ Collection._add_molecules_by_dict client molecules
       = Returns (update [] (combine (map fst molecules)
                               (List.concat (map (Collection.add_molecules client) chunks)))).
Proof.
  intros Hpos.
  set (step := Z.to_nat (Collection.query_limit client)).
  set (mols := map snd molecules).
  exists (map (fun j => slice mols j (j + step))
              (range_loop (List.length mols) 0 (List.length mols) step)).
  split.
  - rewrite range_loop_slices by (unfold step; lia). reflexivity.
  - unfold Collection._add_molecules_by_dict, range0. cbv zeta.
    destruct (Z.eqb_spec (Collection.query_limit client) 0) as [E|_]; [lia|].
    destruct (Z.ltb_spec (Collection.query_limit client) 0) as [E|_]; [lia|].
    fold mols. fold step. rewrite fold_left_extend, map_map. reflexivity.
Qed.

(** X21: with a positive query limit, [_add_molecules_by_dict] sends every
    molecule of the dictionary exactly once, in order, in requests that
    are never empty and never longer than the limit, and pairs the keys
    with the answers in the order they come back. *)
Theorem add_molecules_in_bounded_chunks
    {Mol Id} (client : Collection.PortalClient Mol Id) (molecules : dict Mol) :
  Collection.query_limit client > 0 ->
  exists chunks,
    List.concat chunks = map snd molecules
    /\ Forall (fun chunk => 0 < Z.of_nat (List.length chunk)
                            <= Collection.query_limit client) chunks
    /\ Collection._add_molecules_by_dict client molecules
       = Returns (update [] (combine (map fst molecules)
                               (List.concat (map (Collection.add_molecules client) chunks)))).
Proof.
  intros Hpos.
  set (step := Z.to_nat (Collection.query_limit client)).
  set (mols := map snd molecules).
  exists (map (fun j => slice mols j (j + step))
              (range_loop (List.length mols) 0 (List.length mols) step)).
  split; [|split].
  - rewrite range_loop_slices by (unfold step; lia). reflexivity.
  - apply Forall_forall. intros chunk Hc. apply in_map_iff in Hc.
    destruct Hc as (j & <- & Hj). apply range_loop_below in Hj.
    unfold slice. rewrite length_firstn, length_skipn. unfold step. lia.
  - unfold Collection._add_molecules_by_dict, range0. cbv zeta.
    destruct (Z.eqb_spec (Collection.query_limit client) 0) as [E|_]; [lia|].
    destruct (Z.ltb_spec (Collection.query_limit client) 0) as [E|_]; [lia|].
    fold mols. fold step. rewrite fold_left_extend, map_map. reflexivity.
Qed.

Lemma add_molecules_in_bounded_chunks_witness :
  Collection.query_limit client_by_two > 0
  /\ Collection._add_molecules_by_dict client_by_two
       [("a", 1%nat); ("b", 2%nat); ("c", 3%nat); ("d", 4%nat); ("e", 5%nat)]
     = Returns [("a", 1); ("b", 2); ("c", 3); ("d", 4); ("e", 5)]
  /\ exists chunks,
       List.concat chunks = [1; 2; 3; 4; 5]%nat
       /\ Forall (fun chunk => 0 < Z.of_nat (List.length chunk) <= 2) chunks.
Proof.
  split; [reflexivity|]. split; [reflexivity|].
  destruct (add_molecules_in_bounded_chunks client_by_two
              [("a", 1%nat); ("b", 2%nat); ("c", 3%nat); ("d", 4%nat); ("e", 5%nat)]
              eq_refl) as (chunks & Hc & Hf & _).
  exists chunks. split; [exact Hc | exact Hf].
Defined.

Lemma combine_fst_map_snd {A B C} (f : B -> C) (l : list (A * B)) :
  combine (map fst l) (map f (map snd l)) = map (fun kv => (fst kv, f (snd kv))) l.
Proof. induction l as [|[a b] l IH]; simpl; congruence. Qed.

(** X22: chunking is transparent: when the server answers a request
    molecule by molecule, in order, and the limit is positive,
    [_add_molecules_by_dict] returns the dictionary that maps every key to
    the answer for its molecule, whatever the limit. *)
Theorem add_molecules_chunking_is_transparent
    {Mol Id} (client : Collection.PortalClient Mol Id) (molecules : dict Mol)
    (answer : Mol -> Id) :
  Collection.query_limit client > 0 ->
  (forall request, Collection.add_molecules client request = map answer request) ->
  NoDup (keys molecules) ->
  Collection._add_molecules_by_dict client molecules
  = Returns (map (fun kv => (fst kv, answer (snd kv))) molecules).
Proof.
  intros Hpos Hans Hnd.
  destruct (add_molecules_in_bounded_chunks_aux client molecules Hpos) as (chunks & Hc & E).
  rewrite E. f_equal.
  rewrite (map_ext _ _ Hans), <- concat_map, Hc, combine_fst_map_snd.
  apply update_fresh; [|intros k _ []].
  unfold keys in *. rewrite map_map. exact Hnd.
Qed.

(** X23: a query limit that is not positive breaks the upload: with a
    limit of zero [_add_molecules_by_dict] raises [ValueError] (the step of
    a range must not be zero); with a negative limit it sends no request
    and returns an empty dictionary, whatever molecules it was given. *)
Theorem add_molecules_without_positive_limit
    {Mol Id} (client : Collection.PortalClient Mol Id) (molecules : dict Mol) :
  (Collection.query_limit client = 0 ->
   Collection._add_molecules_by_dict client molecules
   = Raises (ValueError "range() arg 3 must not be zero"))
  /\ (Collection.query_limit client < 0 ->
      Collection._add_molecules_by_dict client molecules = Returns []).
Proof.
  unfold Collection._add_molecules_by_dict, range0. cbv zeta. split; intros H.
  - now rewrite H.
  - destruct (Z.eqb_spec (Collection.query_limit client) 0) as [E|_]; [lia|].
    destruct (Z.ltb_spec (Collection.query_limit client) 0) as [_|E]; [|lia].
    cbn [fold_left]. now rewrite combine_nil.
Qed.

Lemma add_molecules_without_positive_limit_witness :
  Collection.query_limit (Collection.mkClient 0 (map Z.of_nat)) = 0
  /\ Collection._add_molecules_by_dict (Collection.mkClient 0 (map Z.of_nat))
       [("a", 1%nat)]
     = Raises (ValueError "range() arg 3 must not be zero")
  /\ Collection.query_limit (Collection.mkClient (-1) (map Z.of_nat)) < 0
  /\ Collection._add_molecules_by_dict (Collection.mkClient (-1) (map Z.of_nat))
       [("a", 1%nat)]
     = Returns [].
Proof.
  split; [reflexivity|]. split.
  - apply (add_molecules_without_positive_limit (Collection.mkClient 0 (map Z.of_nat))
             [("a", 1%nat)]). reflexivity.
  - split; [reflexivity|].
    apply (add_molecules_without_positive_limit (Collection.mkClient (-1) (map Z.of_nat))
             [("a", 1%nat)]). reflexivity.
Defined.

(** ** The records of a specification *)

(** What the loop of [_get_procedure_ids] puts in the mapping. *)
Lemma procedure_ids_loop {ObjectId} (sp : Collection.Spec) (sieve : option (list string))
    (recs : dict (Collection.Entry ObjectId)) (acc : dict ObjectId) (n : string)
    (td_id : ObjectId) :
  Py.get n
    (fold_left
       (fun mapper kv =>
          let rec := snd kv in
          if (Collection.truthy_sieve sieve
              && negb (mem (Collection.entry_name rec)
                           (match sieve with Some l => l | None => [] end)))%bool
          then mapper
          else match Py.get (Collection.spec_name sp) (Collection.object_map rec) with
               | Some td_id => setitem (Collection.entry_name rec) td_id mapper
               | None => mapper
               end)
       recs acc) = Some td_id ->
  Py.get n acc = Some td_id
  \/ exists key rec,
       In (key, rec) recs
       /\ Collection.entry_name rec = n
       /\ Py.get (Collection.spec_name sp) (Collection.object_map rec) = Some td_id
       /\ (forall l, sieve = Some l -> l <> [] -> In n l).
Proof.
  revert acc. induction recs as [|[key rec] recs IH]; intros acc; cbn [fold_left];
    [now left|].
  intros H. apply IH in H. destruct H as [H | (key' & rec' & Hin & Hrest)];
    [|right; exists key', rec'; split; [now right | exact Hrest]].
  cbv zeta in H. cbn [snd] in H.
  destruct (Collection.truthy_sieve sieve
            && negb (mem (Collection.entry_name rec)
                         (match sieve with Some l => l | None => [] end)))%bool eqn:Es;
    [now left|].
  destruct (Py.get (Collection.spec_name sp) (Collection.object_map rec)) as [id0|] eqn:Eg;
    [|now left].
  rewrite get_setitem in H.
  destruct (String.eqb_spec (Collection.entry_name rec) n) as [En|]; [|now left].
  right. exists key, rec. split; [now left|]. split; [exact En|].
  split; [congruence|].
  intros l -> Hl. destruct l as [|x l]; [contradiction|].
  cbn [Collection.truthy_sieve andb] in Es. apply negb_false_iff, mem_In in Es.
  now rewrite <- En.
Qed.

(** X24: every pair of the mapping [_get_procedure_ids] returns comes from
    an entry of the dataset: the key is the name of an entry whose object
    map holds the id under the name of the specification, and it is one of
    the sieve when a non-empty sieve is given.  An empty sieve restricts
    nothing. *)
Theorem get_procedure_ids_sound
    {ObjectId} (_data : Collection.DataModel ObjectId) (spec : string)
    (sieve : option (list string)) (mapper : dict ObjectId) :
  Collection._get_procedure_ids _data spec sieve = Returns mapper ->
  (exists sp,
     Collection.get_specification _data spec = Returns sp
     /\ forall n td_id, Py.get n mapper = Some td_id ->
          exists key rec,
            In (key, rec) (Collection.records _data)
            /\ Collection.entry_name rec = n
            /\ Py.get (Collection.spec_name sp) (Collection.object_map rec) = Some td_id
            /\ (forall l, sieve = Some l -> l <> [] -> In n l))
  /\ Collection._get_procedure_ids _data spec (Some [])
     = Collection._get_procedure_ids _data spec None.
Proof.
  unfold Collection._get_procedure_ids.
  destruct (Collection.get_specification _data spec) as [sp|e]; [|discriminate].
  intros [= <-]. split; [|reflexivity].
  exists sp. split; [reflexivity|]. intros n td_id H.
  apply procedure_ids_loop in H. destruct H as [H | H]; [discriminate | exact H].
Qed.

Lemma get_procedure_ids_sound_witness :
  Collection._get_procedure_ids dataset0 "B3LYP" (Some ["Neon"; "Argon"])
  = Returns [("Neon", 22)]
  /\ Collection._get_procedure_ids dataset0 "b3lyp" None
     = Returns [("Water", 12); ("Neon", 22)]
  /\ exists sp,
       Collection.get_specification dataset0 "B3LYP" = Returns sp
       /\ forall n td_id, Py.get n [("Neon", 22)] = Some td_id ->
            exists key rec,
              In (key, rec) (Collection.records dataset0)
              /\ Collection.entry_name rec = n
              /\ Py.get (Collection.spec_name sp) (Collection.object_map rec) = Some td_id
              /\ (forall l, Some ["Neon"; "Argon"] = Some l -> l <> [] -> In n l).
Proof.
  split; [reflexivity|]. split; [reflexivity|].
  apply (get_procedure_ids_sound dataset0 "B3LYP" (Some ["Neon"; "Argon"]) [("Neon", 22)]).
  reflexivity.
Defined.

(** X25: specifications are found whatever the case of the name asked
    for; a name no specification is stored under makes
    [get_specification] and [_get_procedure_ids] raise [KeyError] with the
    name as it was asked. *)
Theorem specification_lookup_ignores_case
    {ObjectId} (_data : Collection.DataModel ObjectId) (name name' : string)
    (sieve : option (list string)) :
  (lower name = lower name' ->
   forall sp, Collection.get_specification _data name = Returns sp ->
              Collection.get_specification _data name' = Returns sp)
  /\ (Py.get (lower name) (Collection.specs _data) = None ->
      Collection.get_specification _data name
      = Raises (KeyError ("Specification '" ++ name ++ "' not found.")%string)
      /\ Collection._get_procedure_ids _data name sieve
         = Raises (KeyError ("Specification '" ++ name ++ "' not found.")%string)).
Proof.
  unfold Collection._get_procedure_ids, Collection.get_specification. split.
  - intros <- sp. now destruct (Py.get (lower name) (Collection.specs _data)).
  - intros ->. now split.
Qed.

Lemma specification_lookup_ignores_case_witness :
  lower "B3LYP" = lower "b3Lyp"
  /\ Collection.get_specification dataset0 "B3LYP"
     = Returns (Collection.mkSpec "b3lyp" "dft")
  /\ Collection.get_specification dataset0 "b3Lyp"
     = Returns (Collection.mkSpec "b3lyp" "dft")
  /\ Py.get (lower "MP2") (Collection.specs dataset0) = None
  /\ Collection._get_procedure_ids dataset0 "MP2" None
     = Raises (KeyError "Specification 'MP2' not found.").
Proof.
  split; [reflexivity|]. split; [reflexivity|]. split.
  - apply (proj1 (specification_lookup_ignores_case dataset0 "B3LYP" "b3Lyp" None)
             eq_refl (Collection.mkSpec "b3lyp" "dft")).
    reflexivity.
  - split; [reflexivity|].
    apply (proj2 (specification_lookup_ignores_case dataset0 "MP2" "MP2" None)).
    reflexivity.
Defined.

Lemma add_molecules_chunking_is_transparent_witness :
  Collection.query_limit client_by_two > 0
  /\ (forall request, Collection.add_molecules client_by_two request = map Z.of_nat request)
  /\ NoDup (keys [("a", 1%nat); ("b", 2%nat); ("c", 3%nat)])
  /\ Collection._add_molecules_by_dict client_by_two
       [("a", 1%nat); ("b", 2%nat); ("c", 3%nat)]
     = Returns [("a", 1); ("b", 2); ("c", 3)].
Proof.
  assert (Hnd : NoDup (keys [("a", 1%nat); ("b", 2%nat); ("c", 3%nat)])).
  { unfold keys. simpl. repeat constructor; simpl; intuition discriminate. }
  split; [reflexivity|]. split; [reflexivity|]. split; [exact Hnd|].
  apply (add_molecules_chunking_is_transparent client_by_two
           [("a", 1%nat); ("b", 2%nat); ("c", 3%nat)] Z.of_nat);
    [reflexivity | reflexivity | exact Hnd].
Defined.
